(** * Esports Tournament Management System API: handlers of [main.py]

    A shallow embedding of the request handlers of [src/main.py] over the
    collections declared in [src/schemas.py], and the properties of the
    specification that concern them.

    - Python [str] is a sequence of Unicode code points, [int] is [Z].
    - Each collection of the document store holds documents of the schema
      that [schemas.py] declares for it, in insertion order.
    - The strings that reach a handler in a request and the strings read
      from the store are Unicode text, with no lone surrogate: the
      framework refuses a request that holds one and the store cannot hold
      one. Only [chr] makes one, in [generate_groups].
    - The driver encodes what it is given before it sends anything: it
      refuses a string with a lone surrogate and an integer beyond 64
      bits. No size limit is modelled.
    - A handler is a state-and-exception computation over the database
      handle [db], which is [None] when the store is not configured. *)

From Stdlib Require Import ZArith Lia.
From stdpp Require Import base option list strings.

Local Open Scope Z_scope.

(** ** Python values *)

(** A Python [str]: its code points, each in [range(0x110000)]. *)
Definition str : Type := list Z.

(** A literal of the source, code point by code point. *)
Definition lit (s : string) : str :=
  (λ c, Z.of_nat (Ascii.nat_of_ascii c)) <$> String.list_ascii_of_string s.

Inductive exn : Type :=
  | HTTPException (status_code : Z) (detail : string)
  | ValueError
  | ZeroDivisionError
  | TypeError
  | OverflowError
  | UnicodeEncodeError.

Inductive result (A : Type) : Type :=
  | Return (a : A)
  | Raise (e : exn).
Arguments Return {A} a.
Arguments Raise {A} e.

(** [ord('A')]. *)
Definition ord_A : Z := 65.

(** [chr(i)]: the one-character string of code point [i]; [ValueError]
    outside [range(0x110000)]. *)
Definition chr (i : Z) : result str :=
  if bool_decide (0 ≤ i < 1114112) then Return [i] else Raise ValueError.

(** [a // b] on [int]: floor division, [ZeroDivisionError] when [b = 0]. *)
Definition floordiv (a b : Z) : result Z :=
  if bool_decide (b = 0) then Raise ZeroDivisionError else Return (a `div` b).

(** A string the driver can encode: UTF-8 has no encoding for the
    surrogate code points, U+D800 to U+DFFF. *)
Definition utf8 (s : str) : bool :=
  forallb (λ c, negb (bool_decide (55296 ≤ c ≤ 57343))) s.

(** An integer the driver can encode: a signed integer of 64 bits. *)
Definition int64 (z : Z) : bool := bool_decide (- 2 ^ 63 ≤ z < 2 ^ 63).

(** [range(n)]. *)
Definition range (n : Z) : list Z := Z.of_nat <$> seq 0 (Z.to_nat n).

(** [range(start, stop, step)] for a positive [step], on indices. *)
Definition range3 (start stop step : nat) : list nat :=
  (λ k, start + k * step)%nat <$> seq 0 ((stop - start + (step - 1)) / step)%nat.

(** ** Schemas ([schemas.py]) *)

Module Team.
Record t : Type := mk { team_name : str; team_logo : option str }.
End Team.

Module Player.
Record t : Type :=
  mk { IGN : str; UID : str; player_photo : option str; team_id : option str }.
End Player.

Module Tournament.
Record t : Type := mk { name : str; game : str; team_ids : list str }.
End Tournament.

Module Match.
Record t : Type := mk {
  tournament_id : str;
  round : Z;
  team1_id : option str;
  team2_id : option str;
  winner_id : option str }.
End Match.

Module Group.
Record t : Type := mk { tournament_id : str; name : str }.
End Group.

Module Standing.
Record t : Type := mk {
  tournament_id : str;
  group_name : str;
  team_id : option str;
  team_country_flag : option str;
  team_logo : option str;
  team_name : option str;
  total_points : Z }.
End Standing.

(** ** Request models ([main.py]) *)

Module GroupGenerationRequest.
Record t : Type := mk { number_of_teams : Z; number_of_groups : Z }.
End GroupGenerationRequest.

Module AttachTeamRequest.
Record t : Type := mk { team_id : str }.
End AttachTeamRequest.

Module UpdateStandingRequest.
Record t : Type := mk {
  team_id : option str;
  team_country_flag : option str;
  team_logo : option str;
  team_name : option str;
  total_points : option Z }.
End UpdateStandingRequest.

Module UpdateMatchRequest.
Record t : Type := mk {
  team1_id : option str;
  team2_id : option str;
  winner_id : option str }.
End UpdateMatchRequest.

(** ** Responses *)

Module Serialized.
(** A document as [serialize_doc] returns it: the key [_id] replaced by
    the string field [id]. *)
Record t (A : Type) : Type := mk { id : str; fields : A }.
Arguments mk {A} id fields.
Arguments id {A} _.
Arguments fields {A} _.
End Serialized.

(** [{"ok": ...}] *)
Record OkResponse : Type := { ok : bool }.
(** [{"created": ...}] *)
Record BracketsResponse : Type := { created : nat }.
(** [{"groups_created": ..., "standing_slots": ...}] *)
Record GroupsResponse : Type := { groups_created : nat; standing_slots : nat }.

(** ** The store identifier ([bson.ObjectId]) *)

(** The driver's identifier type is taken as an interface: parsing a
    string ([None] where the constructor raises [InvalidId]), rendering
    with [str], and the identifiers the driver gives to inserted
    documents, in the order it generates them. *)
Class Bson : Type := {
  oid : Type;
  oid_eq_dec :: EqDecision oid;
  ObjectId : str → option oid;
  oid_str : oid → str;
  ObjectId_new : nat → oid }.

Section Handlers.
Context `{Bson}.

(** ** The document store *)

Record Doc (A : Type) : Type := mkDoc { _id : oid; body : A }.
Arguments mkDoc {A} _ _.
Arguments _id {A} _.
Arguments body {A} _.

Record Database : Type := mkDatabase {
  tournament : list (Doc Tournament.t);
  team : list (Doc Team.t);
  player : list (Doc Player.t);
  match_ : list (Doc Match.t);
  group : list (Doc Group.t);
  standing : list (Doc Standing.t);
  generated : nat }.

(** [db[name]]: a collection of the database, read and replaced, and
    whether the driver can encode a new document the handlers build for
    it. *)
Record Collection (A : Type) : Type := mkCollection {
  docs : Database → list (Doc A);
  with_docs : list (Doc A) → Database → Database;
  encodes : A → bool }.
Arguments mkCollection {A} _ _ _.
Arguments docs {A} _ _.
Arguments with_docs {A} _ _ _.
Arguments encodes {A} _ _.

Definition db_tournament : Collection Tournament.t :=
  mkCollection tournament
    (λ l s, mkDatabase l (team s) (player s) (match_ s) (group s) (standing s) (generated s))
    (λ _, true).
Definition db_team : Collection Team.t :=
  mkCollection team
    (λ l s, mkDatabase (tournament s) l (player s) (match_ s) (group s) (standing s) (generated s))
    (λ _, true).
(** A new match holds the path parameter and stored team ids, which are
    text, and the integer 1. *)
Definition db_match : Collection Match.t :=
  mkCollection match_
    (λ l s, mkDatabase (tournament s) (team s) (player s) l (group s) (standing s) (generated s))
    (λ _, true).
(** A new group holds the path parameter and a name made with [chr]. *)
Definition db_group : Collection Group.t :=
  mkCollection group
    (λ l s, mkDatabase (tournament s) (team s) (player s) (match_ s) l (standing s) (generated s))
    (λ g, utf8 (Group.name g)).
(** A new standing holds the path parameter, a name made with [chr],
    nulls and its points. *)
Definition db_standing : Collection Standing.t :=
  mkCollection standing
    (λ l s, mkDatabase (tournament s) (team s) (player s) (match_ s) (group s) l (generated s))
    (λ st, utf8 (Standing.group_name st) && int64 (Standing.total_points st)).

(** Writing back what was read changes nothing, for each collection. *)
Definition lawful {A} (c : Collection A) : Prop :=
  ∀ s, with_docs c (docs c s) s = s.

(** ** Computations of a handler *)

Definition M (A : Type) : Type := Database → result A * Database.

#[global] Instance M_ret : MRet M := λ A a s, (Return a, s).
#[global] Instance M_bind : MBind M := λ A B f m s,
  match m s with
  | (Return a, s') => f a s'
  | (Raise e, s') => (Raise e, s')
  end.

Definition raise {A} (e : exn) : M A := λ s, (Raise e, s).

(** A pure Python expression that may raise. *)
Definition eval {A} (r : result A) : M A := λ s, (r, s).

(** A handler, from the handle [db] to its response and the handle after. *)
Definition endpoint (A : Type) : Type := option Database → result A * option Database.

(** [if db is None: <unavailable>], then the body on the configured store. *)
Definition with_db {A} (unavailable : result A) (m : M A) : endpoint A := λ db,
  match db with
  | None => (unavailable, None)
  | Some s => let '(r, s') := m s in (r, Some s')
  end.

(** ** Store operations (pymongo [Collection]) *)

(** The filter [{"_id": i}]. *)
Definition _id_is {A} (i : oid) (d : Doc A) : bool := bool_decide (_id d = i).

(** [find_one(filter)]: the first document matching, or [None]. *)
Definition find_one {A} (c : Collection A) (q : Doc A → bool) : M (option (Doc A)) :=
  λ s, (Return (List.find q (docs c s)), s).

(** [find(filter)]: every document matching, in stored order. *)
Definition find {A} (c : Collection A) (q : Doc A → bool) : M (list (Doc A)) :=
  λ s, (Return (List.filter q (docs c s)), s).

Fixpoint update_first {A} (q : Doc A → bool) (u : A → A) (l : list (Doc A)) : list (Doc A) :=
  match l with
  | [] => []
  | d :: l' => if q d then mkDoc (_id d) (u (body d)) :: l' else d :: update_first q u l'
  end.

(** [update_one(filter, update)]: the driver encodes the update document
    first and raises [OverflowError] on an integer beyond 64 bits, nothing
    being sent ([fits] tells whether its integers fit); then the update is
    applied to the first document matching, and nothing changes when none
    matches. *)
Definition update_one {A} (c : Collection A) (q : Doc A → bool) (fits : bool) (u : A → A)
  : M () :=
  λ s, if fits then (Return (), with_docs c (update_first q u (docs c s)) s)
       else (Raise OverflowError, s).

(** The documents of one [insert_many], with the identifiers the driver
    generates for them from its [n]-th on. *)
Definition stamp {A} (n : nat) (l : list A) : list (Doc A) :=
  imap (λ k a, mkDoc (ObjectId_new (n + k)) a) l.

(** [insert_many(documents)]: [TypeError] on an empty list; the driver
    encodes the documents before it sends them and raises
    [UnicodeEncodeError] on a name it cannot encode, nothing being
    inserted; else they are appended in order, each under a generated
    identifier. *)
Definition insert_many {A} (c : Collection A) (l : list A) : M () := λ s,
  match l with
  | [] => (Raise TypeError, s)
  | _ =>
    if forallb (encodes c) l then
      let s' := with_docs c (docs c s ++ stamp (generated s) l) s in
      (Return (),
       mkDatabase (tournament s') (team s') (player s') (match_ s') (group s') (standing s')
         (generated s + length l))
    else (Raise UnicodeEncodeError, s)
  end.

(** The update [{"$addToSet": {"team_ids": x}}]. *)
Definition addToSet (x : str) (l : list str) : list str :=
  if bool_decide (x ∈ l) then l else l ++ [x].

Definition addToSet_team_ids (x : str) (t : Tournament.t) : Tournament.t :=
  Tournament.mk (Tournament.name t) (Tournament.game t) (addToSet x (Tournament.team_ids t)).

(** ** [serialize_doc] *)

(** Stored documents are non-empty and carry [_id], which is popped and
    rendered under [id]. *)
Definition serialize_doc {A} (doc : Doc A) : Serialized.t A :=
  Serialized.mk (oid_str (_id doc)) (body doc).

(** [try: ObjectId(s) except Exception: raise HTTPException(400, detail)] *)
Definition try_ObjectId (s : str) (detail : string) : M oid :=
  match ObjectId s with
  | Some i => mret i
  | None => raise (HTTPException 400 detail)
  end.

Definition database_not_configured {A} : result A :=
  Raise (HTTPException 500 "Database not configured").

(** ** Brackets *)

Definition generate_brackets (tournament_id : str) : endpoint BracketsResponse :=
  with_db database_not_configured (
    tid ← try_ObjectId tournament_id "Invalid tournament id";
    tournament ← find_one db_tournament (_id_is tid);
    match tournament with
    | None => raise (HTTPException 404 "Tournament not found")
    | Some tournament =>
      let team_ids := Tournament.team_ids (body tournament) in
      let matches :=
        (λ i : nat,
           let t1 := if bool_decide (i < length team_ids)%nat then team_ids !! i else None in
           let t2 := if bool_decide (i + 1 < length team_ids)%nat then team_ids !! (i + 1)%nat else None in
           Match.mk tournament_id 1 t1 t2 None)
        <$> range3 0 (length team_ids) 2 in
      (if bool_decide (matches = []) then mret () else insert_many db_match matches);;
      mret {| created := length matches |}
    end).

(** [list_matches]: [db["match"].find({"tournament_id": tournament_id})]. *)
Definition list_matches (tournament_id : str) : endpoint (list (Serialized.t Match.t)) :=
  with_db (Return []) (
    docs ← find db_match (λ d, bool_decide (Match.tournament_id (body d) = tournament_id));
    mret (serialize_doc <$> docs)).

(** [{k: v for k, v in payload.model_dump().items() if v is not None}]
    keeps the keys whose value is not [None]. As a record of options, the
    dict is the payload itself: a key is present iff its field is [Some].
    [not updates] holds when no key is. *)
Definition no_match_updates (updates : UpdateMatchRequest.t) : bool :=
  match UpdateMatchRequest.team1_id updates,
        UpdateMatchRequest.team2_id updates,
        UpdateMatchRequest.winner_id updates with
  | None, None, None => true
  | _, _, _ => false
  end.

(** One key of [{"$set": updates}] on a nullable field: the value when the
    key is present, the stored value otherwise. *)
Definition set_field {A} (v : option A) (stored : option A) : option A :=
  match v with
  | Some x => Some x
  | None => stored
  end.

(** [{"$set": updates}] on a match document. *)
Definition set_match (updates : UpdateMatchRequest.t) (m : Match.t) : Match.t :=
  Match.mk (Match.tournament_id m) (Match.round m)
    (set_field (UpdateMatchRequest.team1_id updates) (Match.team1_id m))
    (set_field (UpdateMatchRequest.team2_id updates) (Match.team2_id m))
    (set_field (UpdateMatchRequest.winner_id updates) (Match.winner_id m)).

Definition update_match (match_id : str) (payload : UpdateMatchRequest.t) : endpoint OkResponse :=
  with_db database_not_configured (
    mid ← try_ObjectId match_id "Invalid match id";
    let updates := payload in
    if no_match_updates updates then mret {| ok := true |}
    else
      update_one db_match (_id_is mid) true (set_match updates);;
      mret {| ok := true |}).

(** ** Tournaments *)

(** Modelled from the spec: [get_documents] of [database.py], which is not
    among the sources. The store exposes find-by-filter, and listing
    tournaments returns all of them, optionally filtered by exact
    game-name match: the documents of the collection that satisfy the
    filter, in stored order. The third argument is [None] at every call
    of [main.py] and sets no limit. *)
Definition get_documents {A} (c : Collection A) (filter_dict : Doc A → bool) : M (list (Doc A)) :=
  find c filter_dict.

(** The filter [{"game": game}]. *)
Definition game_is (game : str) (d : Doc Tournament.t) : bool :=
  bool_decide (Tournament.game (body d) = game).

(** The filter [{}]. *)
Definition any_doc {A} (d : Doc A) : bool := true.

(** [{"game": game} if game else {}]: [None] and [""] are both false. *)
Definition list_tournaments (game : option str) : endpoint (list (Serialized.t Tournament.t)) :=
  with_db (Return []) (
    let filter_q :=
      match game with
      | Some g => if bool_decide (g = []) then any_doc else game_is g
      | None => any_doc
      end in
    docs ← get_documents db_tournament filter_q;
    mret (serialize_doc <$> docs)).

Definition get_tournament (tournament_id : str) : endpoint (Serialized.t Tournament.t) :=
  with_db database_not_configured (
    tid ← try_ObjectId tournament_id "Invalid tournament id";
    doc ← find_one db_tournament (_id_is tid);
    match doc with
    | None => raise (HTTPException 404 "Not found")
    | Some doc => mret (serialize_doc doc)
    end).

Definition attach_team (tournament_id : str) (payload : AttachTeamRequest.t) : endpoint OkResponse :=
  with_db database_not_configured (
    ids ← match ObjectId tournament_id with
          | None => raise (HTTPException 400 "Invalid IDs")
          | Some tid =>
            match ObjectId (AttachTeamRequest.team_id payload) with
            | None => raise (HTTPException 400 "Invalid IDs")
            | Some team_oid => mret (tid, team_oid)
            end
          end;
    let '(tid, team_oid) := ids in
    team ← find_one db_team (_id_is team_oid);
    match team with
    | None => raise (HTTPException 404 "Team not found")
    | Some _ =>
      update_one db_tournament (_id_is tid) true
        (addToSet_team_ids (AttachTeamRequest.team_id payload));;
      mret {| ok := true |}
    end).

(** A sequence of attach requests, one after the other, whatever each
    one answers. *)
Definition attach_teams (calls : list (str * AttachTeamRequest.t)) (db : option Database)
  : option Database :=
  foldl (λ db call, (attach_team call.1 call.2 db).2) db calls.

(** ** Groups and standings *)

(** A list comprehension whose element expression may raise: elements are
    evaluated in order and the first exception ends the comprehension. *)
Fixpoint comprehension {A B} (f : A → result B) (l : list A) : result (list B) :=
  match l with
  | [] => Return []
  | a :: l' =>
    match f a with
    | Raise e => Raise e
    | Return b =>
      match comprehension f l' with
      | Raise e => Raise e
      | Return bs => Return (b :: bs)
      end
    end
  end.

Definition empty_standing (tournament_id g : str) : Standing.t :=
  Standing.mk tournament_id g None None None None 0.

Definition generate_groups (tournament_id : str) (payload : GroupGenerationRequest.t)
  : endpoint GroupsResponse :=
  with_db database_not_configured (
    tid ← try_ObjectId tournament_id "Invalid tournament id";
    tournament ← find_one db_tournament (_id_is tid);
    match tournament with
    | None => raise (HTTPException 404 "Tournament not found")
    | Some _ =>
      group_names ← eval (comprehension (λ i, chr (ord_A + i))
                            (range (GroupGenerationRequest.number_of_groups payload)));
      let groups := Group.mk tournament_id <$> group_names in
      (if bool_decide (groups = []) then mret () else insert_many db_group groups);;
      q ← eval (floordiv (GroupGenerationRequest.number_of_teams payload)
                         (GroupGenerationRequest.number_of_groups payload));
      let slots_per_group := Z.max 1 q in
      let standings :=
        g ← group_names; _ ← range slots_per_group; [empty_standing tournament_id g] in
      (if bool_decide (standings = []) then mret () else insert_many db_standing standings);;
      mret {| groups_created := length groups; standing_slots := length standings |}
    end).

(** [{"$set": updates}] on a standing document, with [updates] and
    [not updates] as for matches. *)
Definition no_standing_updates (updates : UpdateStandingRequest.t) : bool :=
  match UpdateStandingRequest.team_id updates,
        UpdateStandingRequest.team_country_flag updates,
        UpdateStandingRequest.team_logo updates,
        UpdateStandingRequest.team_name updates,
        UpdateStandingRequest.total_points updates with
  | None, None, None, None, None => true
  | _, _, _, _, _ => false
  end.

Definition set_standing (updates : UpdateStandingRequest.t) (st : Standing.t) : Standing.t :=
  Standing.mk (Standing.tournament_id st) (Standing.group_name st)
    (set_field (UpdateStandingRequest.team_id updates) (Standing.team_id st))
    (set_field (UpdateStandingRequest.team_country_flag updates) (Standing.team_country_flag st))
    (set_field (UpdateStandingRequest.team_logo updates) (Standing.team_logo st))
    (set_field (UpdateStandingRequest.team_name updates) (Standing.team_name st))
    (default (Standing.total_points st) (UpdateStandingRequest.total_points updates)).

Definition update_standing (standing_id : str) (payload : UpdateStandingRequest.t)
  : endpoint OkResponse :=
  with_db database_not_configured (
    sid ← try_ObjectId standing_id "Invalid standing id";
    let updates := payload in
    if no_standing_updates updates then mret {| ok := true |}
    else
      update_one db_standing (_id_is sid)
        (from_option int64 true (UpdateStandingRequest.total_points updates))
        (set_standing updates);;
      mret {| ok := true |}).

(** ** Vocabulary of the specification, on the store *)

(** No tournament lists a team id twice. *)
Definition no_duplicate_team_ids (s : Database) : Prop :=
  ∀ t, t ∈ tournament s → NoDup (Tournament.team_ids (body t)).






End Handlers.

Arguments mkDoc {_ A} _ _.
Arguments _id {_ A} _.
Arguments body {_ A} _.
Arguments mkCollection {_ A} _ _ _.
Arguments encodes {_ A} _ _.
Arguments docs {_ A} _ _.
Arguments with_docs {_ A} _ _ _.

(** ** Vocabulary of the specification *)

(** The alphabet, in sequence. *)
Definition alphabet : str := lit "ABCDEFGHIJKLMNOPQRSTUVWXYZ".

(** A single uppercase letter. *)
Definition is_uppercase_letter (s : str) : bool :=
  match s with
  | [c] => bool_decide (65 ≤ c ≤ 90)
  | _ => false
  end.

(** ** An instance of the identifier interface

    Identifiers as 96-bit numbers written with 24 hexadecimal digits, and
    a driver that numbers the documents it inserts. [bson.ObjectId] takes
    these strings too, and some with blanks that this instance refuses.
    The examples below run the handlers on it. *)

Definition hex_digit (c : Z) : option Z :=
  if bool_decide (48 ≤ c ≤ 57) then Some (c - 48)
  else if bool_decide (97 ≤ c ≤ 102) then Some (c - 87)
  else if bool_decide (65 ≤ c ≤ 70) then Some (c - 55)
  else None.

Definition hex_value (s : str) : option Z :=
  foldl (λ acc c, n ← acc; d ← hex_digit c; Some (16 * n + d)) (Some 0) s.

Definition hex24_parse (s : str) : option Z :=
  if bool_decide (length s = 24%nat) then hex_value s else None.

Definition hex_char (d : Z) : Z := if bool_decide (d < 10) then 48 + d else 87 + d.

Definition hex24_str (n : Z) : str :=
  (λ k : nat, hex_char ((n `div` 16 ^ (23 - Z.of_nat k)) `mod` 16)) <$> seq 0 24.

Definition hex24 : Bson :=
  {| oid := Z;
     ObjectId := hex24_parse;
     oid_str := hex24_str;
     ObjectId_new := λ n, 4096 + Z.of_nat n |}.

Module Sample.
#[local] Existing Instance hex24.

Definition alpha_id : str := lit "0000000000000000000000a1".
Definition bravo_id : str := lit "0000000000000000000000a2".
Definition charlie_id : str := lit "0000000000000000000000a3".
Definition open_id : str := lit "0000000000000000000000f1".
Definition cup_id : str := lit "0000000000000000000000f2".
Definition absent_id : str := lit "0000000000000000000000ff".

Definition teams : list (Doc Team.t) :=
  [ mkDoc 161 (Team.mk (lit "Alpha") None);
    mkDoc 162 (Team.mk (lit "Bravo") (Some (lit "bravo.png")));
    mkDoc 163 (Team.mk (lit "Charlie") None) ].

Definition pubg_open : Doc Tournament.t :=
  mkDoc 241 (Tournament.mk (lit "PUBG Open") (lit "PUBG Mobile")
               [alpha_id; bravo_id; charlie_id]).
Definition hok_cup : Doc Tournament.t :=
  mkDoc 242 (Tournament.mk (lit "HoK Cup") (lit "Honor of Kings") []).

Definition match_801 : str := lit "000000000000000000000321".
Definition standing_901 : str := lit "000000000000000000000385".

Definition a_match : Doc Match.t :=
  mkDoc 801 (Match.mk cup_id 1 (Some alpha_id) (Some bravo_id) None).
Definition a_standing : Doc Standing.t :=
  mkDoc 901 (Standing.mk cup_id (lit "A") None None None None 0).

Definition store : Database :=
  mkDatabase [pubg_open; hok_cup] teams [] [a_match] [] [a_standing] 0.
End Sample.

(** ** The other listings *)

Section Listings.
Context `{Bson}.

(** [list_groups]: [db["group"].find({"tournament_id": tournament_id})]. *)
Definition list_groups (tournament_id : str) : endpoint (list (Serialized.t Group.t)) :=
  with_db (Return []) (
    docs ← find db_group (λ d, bool_decide (Group.tournament_id (body d) = tournament_id));
    mret (serialize_doc <$> docs)).

(** [list_standings]: [db["standing"].find({"tournament_id": tournament_id})]. *)
Definition list_standings (tournament_id : str)
  : endpoint (list (Serialized.t Standing.t)) :=
  with_db (Return []) (
    docs ← find db_standing
             (λ d, bool_decide (Standing.tournament_id (body d) = tournament_id));
    mret (serialize_doc <$> docs)).

(** The team ids a match holds, first team first, nulls left out. *)
Definition teams_of (m : Match.t) : list str :=
  option_list (Match.team1_id m) ++ option_list (Match.team2_id m).




(** The attach requests of the team ids [xs] on one tournament, in order. *)
Definition attach_each (tournament_id : str) (xs : list str)
  : list (str * AttachTeamRequest.t) :=
  (λ x, (tournament_id, AttachTeamRequest.mk x)) <$> xs.

End Listings.

Module Spelling.
(** The identifiers of [Sample], written with capital digits. *)
Definition alpha_ID : str := lit "0000000000000000000000A1".
Definition open_ID : str := lit "0000000000000000000000F1".
Definition cup_ID : str := lit "0000000000000000000000F2".
End Spelling.

(** * Properties *)

Section Properties.
Context `{Bson}.

(** ** Running a computation *)

Lemma bind_run {A B} (m : M A) (f : A → M B) (s : Database) :
  (m ≫= f) s
  = match m s with
    | (Return a, s') => f a s'
    | (Raise e, s') => (Raise e, s')
    end.
Proof. done. Qed.

Lemma ret_run {A} (a : A) (s : Database) : (mret a : M A) s = (Return a, s).
Proof. done. Qed.

(** One step at a time: a bind is run, then the pure parts are computed. *)
Ltac run :=
  repeat first
    [ rewrite bind_run
    | rewrite ret_run
    | progress cbn beta iota delta
        [raise eval find_one docs db_tournament db_team
         GroupGenerationRequest.number_of_groups
         GroupGenerationRequest.number_of_teams
         AttachTeamRequest.team_id] ].

(** ** The store operations *)

Lemma find_id_is {A} (i : oid) (l : list (Doc A)) (d : Doc A) :
  List.find (_id_is i) l = Some d → d ∈ l ∧ _id d = i.
Proof.
  intros Hf. apply find_some in Hf as [Hin Hq].
  split; [by apply list_elem_of_In|].
  unfold _id_is in Hq. by apply bool_decide_eq_true in Hq.
Qed.

Lemma find_id_is_None {A} (i : oid) (l : list (Doc A)) :
  (∀ d, d ∈ l → _id d ≠ i) → List.find (_id_is i) l = None.
Proof.
  induction l as [|d l IH]; intros Hno; [done|]. simpl.
  unfold _id_is at 1. rewrite bool_decide_eq_false_2.
  - apply IH. intros d' Hd'. apply Hno. by right.
  - apply Hno. by left.
Qed.

Lemma find_id_is_unique {A} (i : oid) (l : list (Doc A)) (d : Doc A) :
  NoDup (_id <$> l) → d ∈ l → _id d = i → List.find (_id_is i) l = Some d.
Proof.
  induction l as [|d' l IH]; intros Hnd Hin Hid; [by apply elem_of_nil in Hin|].
  simpl. rewrite fmap_cons in Hnd. apply NoDup_cons in Hnd as [Hfresh Hnd].
  unfold _id_is at 1. case_bool_decide as Hd'.
  - apply elem_of_cons in Hin as [->|Hin]; [done|].
    exfalso. apply Hfresh. rewrite Hd', <- Hid. by apply list_elem_of_fmap_2.
  - apply elem_of_cons in Hin as [->|Hin]; [congruence|]. by apply IH.
Qed.

Lemma find_app_None {A} (q : A → bool) (l1 l2 : list A) :
  List.find q l1 = None → List.find q (l1 ++ l2) = List.find q l2.
Proof.
  induction l1 as [|a l1 IH]; [done|]. simpl. destruct (q a); [done|apply IH].
Qed.

Lemma update_first_None {A} (q : Doc A → bool) (u : A → A) (l : list (Doc A)) :
  List.find q l = None → update_first q u l = l.
Proof.
  induction l as [|d l IH]; [done|]. simpl.
  destruct (q d); [done|]. intros Hf. by rewrite IH.
Qed.

Lemma update_first_Some {A} (q : Doc A → bool) (u : A → A) (l : list (Doc A)) (d : Doc A) :
  List.find q l = Some d →
  ∃ l1 l2, l = l1 ++ d :: l2 ∧ List.find q l1 = None ∧
           update_first q u l = l1 ++ mkDoc (_id d) (u (body d)) :: l2.
Proof.
  induction l as [|d' l IH]; [done|]. simpl.
  destruct (q d') eqn:Hq.
  - intros [= ->]. by exists [], l.
  - intros Hf. destruct (IH Hf) as (l1 & l2 & -> & Hn & ->).
    exists (d' :: l1), l2. simpl. by rewrite Hq.
Qed.

Lemma length_stamp {A} (n : nat) (l : list A) : length (stamp n l) = length l.
Proof. apply length_imap. Qed.

Lemma body_stamp {A} (n : nat) (l : list A) : body <$> stamp n l = l.
Proof.
  unfold stamp. revert n. induction l as [|a l IH]; intros n; [done|].
  rewrite imap_cons, fmap_cons. simpl. f_equal.
  rewrite <- (IH (S n)) at 2. f_equal. apply imap_ext. intros k x _.
  simpl. do 2 f_equal. lia.
Qed.

Lemma db_tournament_lawful : lawful db_tournament.
Proof. by intros []. Qed.
Lemma db_match_lawful : lawful db_match.
Proof. by intros []. Qed.
Lemma db_group_lawful : lawful db_group.
Proof. by intros []. Qed.
Lemma db_standing_lawful : lawful db_standing.
Proof. by intros []. Qed.

(** What [insert_many] leaves behind, the guard [if documents:] included. *)
Lemma guarded_insert_many {A} (c : Collection A) (l : list A) (s : Database) :
  lawful c →
  forallb (encodes c) l = true →
  ((if bool_decide (l = []) then mret () else insert_many c l) : M ()) s
  = (Return (),
     let s' := with_docs c (docs c s ++ stamp (generated s) l) s in
     mkDatabase (tournament s') (team s') (player s') (match_ s') (group s') (standing s')
       (generated s + length l)).
Proof.
  intros Hc Henc. case_bool_decide as Hl.
  - subst l. unfold mret, M_ret, stamp. simpl. f_equal.
    rewrite app_nil_r, Nat.add_0_r, Hc. by destruct s.
  - unfold insert_many. rewrite Henc. by destruct l.
Qed.

(** A document the driver cannot encode: the insert raises and nothing is
    inserted. *)
Lemma guarded_insert_many_refused {A} (c : Collection A) (l : list A) (a : A)
    (s : Database) :
  a ∈ l → encodes c a = false →
  ((if bool_decide (l = []) then mret () else insert_many c l) : M ()) s
  = (Raise UnicodeEncodeError, s).
Proof.
  intros Ha Henc. rewrite bool_decide_eq_false_2 by (by intros ->; apply elem_of_nil in Ha).
  unfold insert_many. destruct (forallb (encodes c) l) eqn:Hall.
  - rewrite forallb_forall in Hall. rewrite Hall in Henc; [done|]. by apply list_elem_of_In.
  - by destruct l; [apply elem_of_nil in Ha|].
Qed.

Lemma forallb_always {A} (l : list A) : forallb (λ _, true) l = true.
Proof. by induction l. Qed.

(** ** Brackets *)

Lemma range3_pairs (n : nat) :
  range3 0 n 2 = (λ k, 2 * k)%nat <$> seq 0 ((n + 1) / 2)%nat.
Proof.
  unfold range3. replace (n - 0 + (2 - 1))%nat with (n + 1)%nat by lia.
  apply list_fmap_ext. intros _ k _. lia.
Qed.

Lemma last_pair_odd (n : nat) :
  (0 < (n + 1) / 2)%nat →
  (n ≤ 2 * Nat.pred ((n + 1) / 2) + 1)%nat ↔ Nat.Odd n.
Proof.
  intros Hpos.
  pose proof (Nat.div_mod_eq (n + 1) 2) as Hdm.
  pose proof (Nat.mod_upper_bound (n + 1) 2) as Hmod.
  split.
  - intros Hge. exists (Nat.pred ((n + 1) / 2)). lia.
  - intros [j Hj]. lia.
Qed.

Lemma bracket_matches (tournament_id : str) (team_ids : list str) :
  (λ i : nat,
     let t1 := if bool_decide (i < length team_ids)%nat then team_ids !! i else None in
     let t2 := if bool_decide (i + 1 < length team_ids)%nat
               then team_ids !! (i + 1)%nat else None in
     Match.mk tournament_id 1 t1 t2 None) <$> range3 0 (length team_ids) 2
  = (λ k : nat, Match.mk tournament_id 1 (team_ids !! (2 * k)%nat)
                  (team_ids !! (2 * k + 1)%nat) None)
    <$> seq 0 ((length team_ids + 1) / 2)%nat.
Proof.
  rewrite range3_pairs, <- list_fmap_compose.
  apply list_fmap_ext. intros _ k _. simpl.
  f_equal; case_bool_decide; try done; symmetry; apply lookup_ge_None; lia.
Qed.

(** The run of [generate_brackets] on a stored tournament, in closed form. *)
Lemma generate_brackets_run (tournament_id : str) (tid : oid) (t : Doc Tournament.t)
    (s : Database) :
  ObjectId tournament_id = Some tid →
  List.find (_id_is tid) (tournament s) = Some t →
  let team_ids := Tournament.team_ids (body t) in
  let matches :=
    (λ k : nat, Match.mk tournament_id 1 (team_ids !! (2 * k)%nat)
                  (team_ids !! (2 * k + 1)%nat) None)
    <$> seq 0 ((length team_ids + 1) / 2)%nat in
  generate_brackets tournament_id (Some s)
  = (Return {| created := length matches |},
     Some (mkDatabase (tournament s) (team s) (player s)
             (match_ s ++ stamp (generated s) matches)
             (group s) (standing s) (generated s + length matches))).
Proof.
  intros Hid Hfind team_ids matches.
  unfold generate_brackets, with_db, try_ObjectId, find_one, mbind, M_bind.
  rewrite Hid. simpl. rewrite Hfind.
  rewrite bracket_matches. fold team_ids. fold matches.
  by rewrite (guarded_insert_many db_match matches s db_match_lawful (forallb_always _)).
Qed.

(** C1: on a stored tournament with N attached team ids, generate_brackets
    answers created = ceil(N/2) and appends exactly ceil(N/2) documents to
    the match collection, nothing else changing; match k pairs team_ids[2k]
    with team_ids[2k+1] in round 1 with no winner, and the last match has
    no second team iff N is odd. *)
Theorem generate_brackets_pairs (tournament_id : str) (tid : oid) (t : Doc Tournament.t)
    (s : Database) :
  ObjectId tournament_id = Some tid →
  List.find (_id_is tid) (tournament s) = Some t →
  let team_ids := Tournament.team_ids (body t) in
  let N := length team_ids in
  ∃ new : list (Doc Match.t),
    generate_brackets tournament_id (Some s)
    = (Return {| created := ((N + 1) / 2)%nat |},
       Some (mkDatabase (tournament s) (team s) (player s) (match_ s ++ new)
               (group s) (standing s) (generated s + length new)))
    ∧ length new = ((N + 1) / 2)%nat
    ∧ (∀ k : nat, (k < (N + 1) / 2)%nat →
         ∃ t1, team_ids !! (2 * k)%nat = Some t1 ∧
               body <$> new !! k
               = Some (Match.mk tournament_id 1 (Some t1)
                         (team_ids !! (2 * k + 1)%nat) None))
    ∧ (∀ m, last new = Some m → Match.team2_id (body m) = None ↔ Nat.Odd N).
Proof.
  intros Hid Hfind team_ids N.
  pose proof (generate_brackets_run tournament_id tid t s Hid Hfind) as Hrun.
  cbv zeta in Hrun. fold team_ids in Hrun. fold N in Hrun.
  set (matches := (λ k : nat, Match.mk tournament_id 1 (team_ids !! (2 * k)%nat)
                     (team_ids !! (2 * k + 1)%nat) None)
                  <$> seq 0 ((N + 1) / 2)%nat) in Hrun.
  assert (Hlen : length matches = ((N + 1) / 2)%nat).
  { unfold matches. by rewrite length_fmap, length_seq. }
  assert (Hbody : ∀ k : nat, (k < (N + 1) / 2)%nat →
            body <$> stamp (generated s) matches !! k
            = Some (Match.mk tournament_id 1 (team_ids !! (2 * k)%nat)
                      (team_ids !! (2 * k + 1)%nat) None)).
  { intros k Hk. rewrite <- list_lookup_fmap, body_stamp. unfold matches.
    rewrite list_lookup_fmap, lookup_seq_lt by done. done. }
  exists (stamp (generated s) matches).
  rewrite length_stamp, Hlen. rewrite Hlen in Hrun.
  split; [done|]. split; [done|]. split.
  - intros k Hk.
    destruct (lookup_lt_is_Some_2 team_ids (2 * k)%nat) as [t1 Ht1].
    { fold N. pose proof (Nat.div_mod_eq (N + 1) 2).
      pose proof (Nat.mod_upper_bound (N + 1) 2). lia. }
    exists t1. split; [done|]. by rewrite Hbody, Ht1.
  - intros m Hlast. rewrite last_lookup, length_stamp, Hlen in Hlast.
    assert (Hpos : (0 < (N + 1) / 2)%nat).
    { apply lookup_lt_Some in Hlast. rewrite length_stamp, Hlen in Hlast. lia. }
    pose proof (Hbody (Nat.pred ((N + 1) / 2)) ltac:(lia)) as Hb.
    rewrite Hlast in Hb. cbn [fmap option_fmap option_map] in Hb.
    injection Hb as ->. cbn [Match.team2_id].
    rewrite lookup_ge_None. by apply last_pair_odd.
Qed.

Lemma list_matches_run (tournament_id : str) (s : Database) :
  list_matches tournament_id (Some s)
  = (Return (serialize_doc <$>
             List.filter (λ d, bool_decide (Match.tournament_id (body d) = tournament_id))
               (match_ s)),
     Some s).
Proof. done. Qed.

Lemma filter_all {A} (q : A → bool) (l : list A) :
  (∀ x, x ∈ l → q x = true) → List.filter q l = l.
Proof.
  induction l as [|a l IH]; intros Hall; [done|]. simpl.
  rewrite (Hall a) by (by left). f_equal. apply IH. intros x Hx. apply Hall. by right.
Qed.

(** C8: generate_brackets has no idempotence guard. Called twice in
    succession on a stored tournament with N attached teams, both calls
    answer created = ceil(N/2), the second appends a second copy of the
    round-1 matches (new identifiers, same fields), and a tournament that
    had no match before is then listed with 2 * ceil(N/2) matches. *)
Theorem generate_brackets_twice (tournament_id : str) (tid : oid) (t : Doc Tournament.t)
    (s : Database) :
  ObjectId tournament_id = Some tid →
  List.find (_id_is tid) (tournament s) = Some t →
  let N := length (Tournament.team_ids (body t)) in
  ∃ (first second : list (Doc Match.t)) (s1 s2 : Database),
    generate_brackets tournament_id (Some s)
    = (Return {| created := ((N + 1) / 2)%nat |}, Some s1)
    ∧ generate_brackets tournament_id (Some s1)
      = (Return {| created := ((N + 1) / 2)%nat |}, Some s2)
    ∧ match_ s1 = match_ s ++ first
    ∧ match_ s2 = match_ s ++ first ++ second
    ∧ length first = ((N + 1) / 2)%nat
    ∧ body <$> second = body <$> first
    ∧ ((list_matches tournament_id (Some s)).1 = Return [] →
       ∃ l, (list_matches tournament_id (Some s2)).1 = Return l
            ∧ length l = (2 * ((N + 1) / 2))%nat).
Proof.
  intros Hid Hfind N.
  pose proof (generate_brackets_run tournament_id tid t s Hid Hfind) as Hrun1.
  cbv zeta in Hrun1. fold N in Hrun1.
  set (matches := (λ k : nat, Match.mk tournament_id 1
                     (Tournament.team_ids (body t) !! (2 * k)%nat)
                     (Tournament.team_ids (body t) !! (2 * k + 1)%nat) None)
                  <$> seq 0 ((N + 1) / 2)%nat) in Hrun1.
  assert (Hlen : length matches = ((N + 1) / 2)%nat).
  { unfold matches. by rewrite length_fmap, length_seq. }
  set (s1 := mkDatabase (tournament s) (team s) (player s)
               (match_ s ++ stamp (generated s) matches)
               (group s) (standing s) (generated s + length matches)) in Hrun1.
  pose proof (generate_brackets_run tournament_id tid t s1 Hid Hfind) as Hrun2.
  cbv zeta in Hrun2. fold N in Hrun2. fold matches in Hrun2.
  set (s2 := mkDatabase _ _ _ _ _ _ _) in Hrun2.
  exists (stamp (generated s) matches), (stamp (generated s1) matches), s1, s2.
  rewrite Hlen in Hrun1, Hrun2.
  split; [done|]. split; [done|]. split; [done|].
  split; [by unfold s2, s1; simpl; rewrite <- (assoc_L (++))|].
  split; [by rewrite length_stamp|].
  split; [by rewrite !body_stamp|].
  rewrite !list_matches_run. cbn [fst]. intros [= Hnone].
  apply fmap_nil_inv in Hnone.
  eexists. split; [done|].
  rewrite length_fmap. unfold s2, s1. cbn [match_ generated].
  rewrite !List.filter_app, Hnone, app_nil_l.
  assert (Hall : ∀ n (d : Doc Match.t), d ∈ stamp n matches →
            bool_decide (Match.tournament_id (body d) = tournament_id) = true).
  { intros n d Hd. apply bool_decide_eq_true.
    apply (list_elem_of_fmap_2 body) in Hd. rewrite body_stamp in Hd.
    unfold matches in Hd. apply list_elem_of_fmap in Hd as (k & -> & _). done. }
  rewrite !filter_all by apply Hall.
  rewrite length_app, !length_stamp, Hlen. lia.
Qed.

(** ** Groups and standings *)

Lemma length_range (n : Z) : length (range n) = Z.to_nat n.
Proof. unfold range. by rewrite length_fmap, length_seq. Qed.

Lemma lookup_range (n : Z) (i : nat) :
  Z.of_nat i < n → range n !! i = Some (Z.of_nat i).
Proof.
  intros Hi. unfold range. rewrite list_lookup_fmap, lookup_seq_lt by lia. done.
Qed.

Lemma elem_of_range (n x : Z) : x ∈ range n ↔ 0 ≤ x < n.
Proof.
  unfold range. rewrite list_elem_of_fmap. setoid_rewrite elem_of_seq. split.
  - intros (k & -> & Hk). lia.
  - intros Hx. exists (Z.to_nat x). lia.
Qed.

Lemma comprehension_Return {A B} (f : A → result B) (g : A → B) (l : list A) :
  (∀ x, x ∈ l → f x = Return (g x)) → comprehension f l = Return (g <$> l).
Proof.
  induction l as [|a l IH]; intros Hf; [done|]. simpl.
  rewrite (Hf a) by (by left). rewrite IH; [done|].
  intros x Hx. apply Hf. by right.
Qed.

Lemma comprehension_Raise {A B} (f : A → result B) (l : list A) (a : A) (e : exn) :
  a ∈ l → (∀ x, x ∈ l → f x = Raise e ∨ ∃ b, f x = Return b) → f a = Raise e →
  comprehension f l = Raise e.
Proof.
  induction l as [|a' l IH]; intros Hin Hf Ha; [by apply elem_of_nil in Hin|]. simpl.
  destruct (Hf a') as [Ha'|[b Hb]]; [by left|by rewrite Ha'|]. rewrite Hb.
  apply elem_of_cons in Hin as [->|Hin]; [congruence|].
  rewrite IH; [done|done| |done]. intros x Hx. apply Hf. by right.
Qed.

Lemma group_names_Return (G : Z) :
  G ≤ 1114047 →
  comprehension (λ i, chr (ord_A + i)) (range G) = Return ((λ i, [65 + i]) <$> range G).
Proof.
  intros HG. apply comprehension_Return. intros x Hx%elem_of_range.
  unfold chr, ord_A. by rewrite bool_decide_eq_true_2 by lia.
Qed.

Lemma group_names_Raise (G : Z) :
  1114047 < G → comprehension (λ i, chr (ord_A + i)) (range G) = Raise ValueError.
Proof.
  intros HG. apply comprehension_Raise with (a := 1114047).
  - apply elem_of_range. lia.
  - intros x _. unfold chr. case_bool_decide; eauto.
  - done.
Qed.

Lemma group_names_utf8 (G : Z) (g : str) :
  G ≤ 55231 → g ∈ (λ i, [65 + i]) <$> range G → utf8 g = true.
Proof.
  intros HG (i & -> & Hi%elem_of_range)%list_elem_of_fmap. unfold utf8. simpl.
  rewrite bool_decide_eq_false_2 by lia. done.
Qed.

Lemma slots_of_group {A B C} (e : A → B) (inner : list C) (l : list A) :
  (g ← l; _ ← inner; [e g]) = g ← l; replicate (length inner) (e g).
Proof.
  apply list_bind_ext; [|done]. intros g.
  induction inner as [|c inner IH]; [done|]. rewrite bind_cons, IH. done.
Qed.

Lemma length_bind_replicate {A B} (e : A → B) (m : nat) (l : list A) :
  length (g ← l; replicate m (e g)) = (length l * m)%nat.
Proof.
  induction l as [|a l IH]; [done|].
  rewrite bind_cons, length_app, length_replicate, IH. simpl. lia.
Qed.

Lemma lookup_bind_replicate {A B} (e : A → B) (m : nat) (l : list A) (i k : nat) :
  (k < m)%nat → (g ← l; replicate m (e g)) !! (i * m + k)%nat = e <$> l !! i.
Proof.
  intros Hk. revert i. induction l as [|a l IH]; intros i; [done|].
  rewrite bind_cons. destruct i as [|i].
  - rewrite lookup_app_l by (rewrite length_replicate; lia).
    simpl. by apply lookup_replicate_2.
  - rewrite lookup_app_r by (rewrite length_replicate; lia).
    rewrite length_replicate.
    replace (S i * m + k - m)%nat with (i * m + k)%nat by lia. apply IH.
Qed.

(** The run of [generate_groups] on a stored tournament, once the group
    names are computed and the number of groups is not zero. *)
Lemma generate_groups_run (tournament_id : str) (tid : oid) (t : Doc Tournament.t)
    (s : Database) (T G : Z) (names : list str) :
  ObjectId tournament_id = Some tid →
  List.find (_id_is tid) (tournament s) = Some t →
  comprehension (λ i, chr (ord_A + i)) (range G) = Return names →
  (∀ g, g ∈ names → utf8 g = true) →
  G ≠ 0 →
  let m := Z.to_nat (Z.max 1 (T `div` G)) in
  let groups := Group.mk tournament_id <$> names in
  let standings := g ← names; replicate m (empty_standing tournament_id g) in
  generate_groups tournament_id (GroupGenerationRequest.mk T G) (Some s)
  = (Return {| groups_created := length groups; standing_slots := length standings |},
     Some (mkDatabase (tournament s) (team s) (player s) (match_ s)
             (group s ++ stamp (generated s) groups)
             (standing s ++ stamp (generated s + length groups) standings)
             (generated s + length groups + length standings))).
Proof.
  intros Hid Hfind Hnames Hutf HG m groups standings.
  assert (Hgroups : forallb (encodes db_group) groups = true).
  { apply forallb_forall. intros g Hg%list_elem_of_In.
    apply list_elem_of_fmap in Hg as (name & -> & Hname). by apply Hutf. }
  assert (Hstandings : forallb (encodes db_standing) standings = true).
  { apply forallb_forall. intros st Hst%list_elem_of_In.
    apply list_elem_of_bind in Hst as (name & Hst & Hname).
    apply elem_of_replicate in Hst as [-> _]. simpl. by rewrite Hutf. }
  unfold generate_groups, with_db, try_ObjectId, floordiv.
  rewrite Hid. run. rewrite Hfind. run. rewrite Hnames. run. fold groups.
  rewrite (guarded_insert_many db_group groups s db_group_lawful Hgroups).
  rewrite bool_decide_eq_false_2 by done. run.
  rewrite slots_of_group, length_range. fold m. fold standings.
  rewrite guarded_insert_many by (done || apply db_standing_lawful). done.
Qed.

(** C10: on a stored tournament, generate_groups with number_of_groups = 0
    raises the division-by-zero error, not caught by the handler, and the
    store is as before the call: no group and no standing was inserted. *)
Theorem generate_groups_zero_groups (tournament_id : str) (tid : oid)
    (t : Doc Tournament.t) (s : Database) (T : Z) :
  ObjectId tournament_id = Some tid →
  List.find (_id_is tid) (tournament s) = Some t →
  generate_groups tournament_id (GroupGenerationRequest.mk T 0) (Some s)
  = (Raise ZeroDivisionError, Some s).
Proof.
  intros Hid Hfind.
  unfold generate_groups, with_db, try_ObjectId, find_one, mbind, M_bind.
  rewrite Hid. simpl. by rewrite Hfind.
Qed.

(** Beyond the last code point [chr] raises, before anything is inserted. *)
Lemma generate_groups_beyond_chr (tournament_id : str) (tid : oid) (t : Doc Tournament.t)
    (s : Database) (T G : Z) :
  ObjectId tournament_id = Some tid →
  List.find (_id_is tid) (tournament s) = Some t →
  1114047 < G →
  generate_groups tournament_id (GroupGenerationRequest.mk T G) (Some s)
  = (Raise ValueError, Some s).
Proof.
  intros Hid Hfind HG. unfold generate_groups, with_db, try_ObjectId.
  rewrite Hid. run. rewrite Hfind. run. by rewrite group_names_Raise.
Qed.

(** From the first name that is a lone surrogate on, the driver refuses the
    groups and nothing is inserted. *)
Lemma generate_groups_lone_surrogate (tournament_id : str) (tid : oid)
    (t : Doc Tournament.t) (s : Database) (T G : Z) :
  ObjectId tournament_id = Some tid →
  List.find (_id_is tid) (tournament s) = Some t →
  55231 < G ≤ 1114047 →
  generate_groups tournament_id (GroupGenerationRequest.mk T G) (Some s)
  = (Raise UnicodeEncodeError, Some s).
Proof.
  intros Hid Hfind HG. unfold generate_groups, with_db, try_ObjectId.
  rewrite Hid. run. rewrite Hfind. run. rewrite group_names_Return by lia. run.
  rewrite (guarded_insert_many_refused db_group _ (Group.mk tournament_id [65 + 55231]));
    [done| |done].
  apply list_elem_of_fmap. exists [65 + 55231]. split; [done|].
  apply list_elem_of_fmap. exists 55231. split; [done|]. apply elem_of_range. lia.
Qed.

(** C2, for 1 <= G <= 55231 (the driver must be able to encode the group
    names chr(65), ..., chr(65 + G - 1), and chr(65 + 55231) is the lone
    surrogate U+D800): on a stored tournament, generate_groups with
    number_of_groups = G and number_of_teams = T answers groups_created = G
    and standing_slots = G * max(1, T // G), appends exactly G documents to
    the group collection and G * max(1, T // G) to the standing collection,
    nothing else changing; every new standing has team_id null and
    total_points 0, and the slots of the i-th group are the max(1, T // G)
    consecutive standings from position i * max(1, T // G) on. *)
Theorem generate_groups_counts (tournament_id : str) (tid : oid) (t : Doc Tournament.t)
    (s : Database) (T G : Z) :
  ObjectId tournament_id = Some tid →
  List.find (_id_is tid) (tournament s) = Some t →
  1 ≤ G ≤ 55231 →
  let slots := Z.max 1 (T `div` G) in
  ∃ (new_groups : list (Doc Group.t)) (new_standings : list (Doc Standing.t)),
    generate_groups tournament_id (GroupGenerationRequest.mk T G) (Some s)
    = (Return {| groups_created := Z.to_nat G; standing_slots := Z.to_nat (G * slots) |},
       Some (mkDatabase (tournament s) (team s) (player s) (match_ s)
               (group s ++ new_groups) (standing s ++ new_standings)
               (generated s + length new_groups + length new_standings)))
    ∧ Z.of_nat (length new_groups) = G
    ∧ Z.of_nat (length new_standings) = G * slots
    ∧ (∀ st, st ∈ new_standings →
         Standing.team_id (body st) = None ∧ Standing.total_points (body st) = 0)
    ∧ (∀ i k : nat, Z.of_nat i < G → Z.of_nat k < slots →
         ∃ g, body <$> new_groups !! i = Some (Group.mk tournament_id g)
              ∧ body <$> new_standings !! (i * Z.to_nat slots + k)%nat
                = Some (Standing.mk tournament_id g None None None None 0)).
Proof.
  intros Hid Hfind HG slots.
  pose proof (generate_groups_run tournament_id tid t s T G _ Hid Hfind
                (group_names_Return G ltac:(lia)) (λ g, group_names_utf8 G g ltac:(lia))
                ltac:(lia)) as Hrun.
  cbv zeta in Hrun. fold slots in Hrun.
  set (names := (λ i, [65 + i]) <$> range G) in Hrun.
  set (groups := Group.mk tournament_id <$> names) in Hrun.
  set (standings := g ← names; replicate (Z.to_nat slots) (empty_standing tournament_id g))
    in Hrun.
  assert (Hnames : @length str names = Z.to_nat G).
  { unfold names. by rewrite length_fmap, length_range. }
  assert (Hgroups : length groups = Z.to_nat G).
  { unfold groups. by rewrite length_fmap. }
  assert (Hstandings : length standings = Z.to_nat (G * slots)).
  { unfold standings. rewrite length_bind_replicate, Hnames. lia. }
  exists (stamp (generated s) groups), (stamp (generated s + length groups) standings).
  rewrite !length_stamp. rewrite Hgroups, Hstandings in Hrun |- *.
  split; [done|]. split; [lia|]. split; [lia|]. split.
  - intros st Hst. apply (list_elem_of_fmap_2 body) in Hst.
    rewrite body_stamp in Hst. unfold standings in Hst.
    apply list_elem_of_bind in Hst as (g & Hst & _).
    apply elem_of_replicate in Hst as [-> _]. done.
  - intros i k Hi Hk. exists [65 + Z.of_nat i].
    rewrite <- !list_lookup_fmap, !body_stamp. split.
    + unfold groups, names. rewrite !list_lookup_fmap, lookup_range by done. done.
    + unfold standings. rewrite lookup_bind_replicate by lia.
      unfold names. rewrite list_lookup_fmap, lookup_range by done. done.
Qed.

(** C6, for 1 <= N <= 26: on a stored tournament, the groups that
    generate_groups creates for number_of_groups = N are named, in order,
    with the first N letters of the alphabet, each name a single uppercase
    letter. *)
Theorem generate_groups_names (tournament_id : str) (tid : oid) (t : Doc Tournament.t)
    (s : Database) (T N : Z) :
  ObjectId tournament_id = Some tid →
  List.find (_id_is tid) (tournament s) = Some t →
  1 ≤ N ≤ 26 →
  ∃ (r : GroupsResponse) (s' : Database) (new_groups : list (Doc Group.t)),
    generate_groups tournament_id (GroupGenerationRequest.mk T N) (Some s)
    = (Return r, Some s')
    ∧ group s' = group s ++ new_groups
    ∧ Z.of_nat (length new_groups) = N
    ∧ Group.name ∘ body <$> new_groups = (λ c, [c]) <$> take (Z.to_nat N) alphabet
    ∧ (∀ g, g ∈ new_groups → is_uppercase_letter (Group.name (body g)) = true).
Proof.
  intros Hid Hfind HN.
  pose proof (generate_groups_run tournament_id tid t s T N _ Hid Hfind
                (group_names_Return N ltac:(lia)) (λ g, group_names_utf8 N g ltac:(lia))
                ltac:(lia)) as Hrun.
  cbv zeta in Hrun.
  set (names := (λ i, [65 + i]) <$> range N) in Hrun.
  assert (Halpha : names = (λ c, [c]) <$> take (Z.to_nat N) alphabet).
  { unfold names, range. rewrite <- list_fmap_compose.
    assert (Hcases : (Z.to_nat N < 27)%nat) by lia.
    revert Hcases. generalize (Z.to_nat N). intros n Hn.
    do 27 (destruct n as [|n]; [reflexivity|]). lia. }
  eexists _, _, (stamp (generated s) (Group.mk tournament_id <$> names)).
  split; [exact Hrun|]. split; [done|].
  rewrite list_fmap_compose, body_stamp, <- list_fmap_compose.
  split; [|split].
  - rewrite length_stamp, length_fmap. unfold names. rewrite length_fmap, length_range. lia.
  - rewrite <- Halpha. clear. by induction names as [|?? IH]; [|rewrite fmap_cons, IH].
  - intros g Hg. apply (list_elem_of_fmap_2 body) in Hg. rewrite body_stamp in Hg.
    apply list_elem_of_fmap in Hg as (name & -> & Hname). simpl.
    unfold names in Hname. apply list_elem_of_fmap in Hname as (i & -> & Hi%elem_of_range).
    simpl. apply bool_decide_eq_true. lia.
Qed.

(** ** Partial updates *)


Lemma update_first_id {A} (q : Doc A → bool) (u : A → A) (l : list (Doc A)) :
  (∀ a, u a = a) → update_first q u l = l.
Proof.
  intros Hu. induction l as [|[i a] l IH]; [done|]. simpl.
  destruct (q _); [by rewrite Hu|by rewrite IH].
Qed.




Lemma set_match_no_updates (p : UpdateMatchRequest.t) (m : Match.t) :
  no_match_updates p = true → set_match p m = m.
Proof. destruct p as [[] [] []], m; by intros [=]. Qed.

Lemma set_standing_no_updates (p : UpdateStandingRequest.t) (st : Standing.t) :
  no_standing_updates p = true → set_standing p st = st.
Proof. destruct p as [[] [] [] [] []], st; by intros [=]. Qed.

Lemma update_match_run (match_id : str) (mid : oid) (p : UpdateMatchRequest.t)
    (s : Database) :
  ObjectId match_id = Some mid →
  update_match match_id p (Some s)
  = (Return {| ok := true |},
     Some (mkDatabase (tournament s) (team s) (player s)
             (update_first (_id_is mid) (set_match p) (match_ s))
             (group s) (standing s) (generated s))).
Proof.
  intros Hid. unfold update_match, with_db, try_ObjectId. rewrite Hid. run.
  destruct (no_match_updates p) eqn:Hp; [|done].
  rewrite update_first_id by (intros; by apply set_match_no_updates). by destruct s.
Qed.

Lemma points_fit (p : UpdateStandingRequest.t) :
  (∀ v, UpdateStandingRequest.total_points p = Some v → - 2 ^ 63 ≤ v < 2 ^ 63) →
  from_option int64 true (UpdateStandingRequest.total_points p) = true.
Proof.
  intros Hfit. destruct (UpdateStandingRequest.total_points p) as [v|]; [|done].
  simpl. apply bool_decide_eq_true. by apply Hfit.
Qed.

Lemma update_standing_run (standing_id : str) (sid : oid) (p : UpdateStandingRequest.t)
    (s : Database) :
  ObjectId standing_id = Some sid →
  (∀ v, UpdateStandingRequest.total_points p = Some v → - 2 ^ 63 ≤ v < 2 ^ 63) →
  update_standing standing_id p (Some s)
  = (Return {| ok := true |},
     Some (mkDatabase (tournament s) (team s) (player s) (match_ s) (group s)
             (update_first (_id_is sid) (set_standing p) (standing s))
             (generated s))).
Proof.
  intros Hid Hfit. unfold update_standing, with_db, try_ObjectId. rewrite Hid. run.
  destruct (no_standing_updates p) eqn:Hp.
  - rewrite update_first_id by (intros; by apply set_standing_no_updates). by destruct s.
  - run. unfold update_one. by rewrite points_fit.
Qed.

(** Points beyond 64 bits: the driver refuses the update and the store is
    as before. *)
Lemma update_standing_refused (standing_id : str) (sid : oid)
    (p : UpdateStandingRequest.t) (v : Z) (s : Database) :
  ObjectId standing_id = Some sid →
  UpdateStandingRequest.total_points p = Some v →
  ¬ (- 2 ^ 63 ≤ v < 2 ^ 63) →
  update_standing standing_id p (Some s) = (Raise OverflowError, Some s).
Proof.
  intros Hid Hv Hbig. unfold update_standing, with_db, try_ObjectId. rewrite Hid. run.
  assert (Hp : no_standing_updates p = false).
  { unfold no_standing_updates. rewrite Hv. by repeat case_match. }
  rewrite Hp. run. unfold update_one. rewrite Hv. simpl.
  unfold int64. by rewrite bool_decide_eq_false_2.
Qed.


(** ** Tournaments *)

Lemma find_id_is_Some {A} (i : oid) (l : list (Doc A)) (d : Doc A) :
  d ∈ l → _id d = i → ∃ d', List.find (_id_is i) l = Some d'.
Proof.
  intros Hin Hid. destruct (List.find (_id_is i) l) as [d'|] eqn:Hf; [by exists d'|].
  apply list_elem_of_In in Hin. apply (find_none _ _ Hf d) in Hin.
  unfold _id_is in Hin. by rewrite bool_decide_eq_true_2 in Hin.
Qed.

(** C5: get_tournament fails with 500 when the store is not configured;
    otherwise with 400 on an id that does not parse, with 404 on a
    well-formed id that no stored tournament carries, and on the id of a
    stored tournament it returns that tournament, the identifier rendered
    as a string under id; the store is never changed. *)
Theorem get_tournament_cases (tournament_id : str) :
  get_tournament tournament_id None
  = (Raise (HTTPException 500 "Database not configured"), None)
  ∧ (∀ s, ObjectId tournament_id = None →
       get_tournament tournament_id (Some s)
       = (Raise (HTTPException 400 "Invalid tournament id"), Some s))
  ∧ (∀ s tid, ObjectId tournament_id = Some tid →
       (∀ d, d ∈ tournament s → _id d ≠ tid) →
       get_tournament tournament_id (Some s)
       = (Raise (HTTPException 404 "Not found"), Some s))
  ∧ (∀ s tid d, ObjectId tournament_id = Some tid →
       NoDup (_id <$> tournament s) → d ∈ tournament s → _id d = tid →
       get_tournament tournament_id (Some s)
       = (Return (Serialized.mk (oid_str tid) (body d)), Some s)).
Proof.
  split; [done|]. split; [|split].
  - intros s Hid. unfold get_tournament, with_db, try_ObjectId. by rewrite Hid.
  - intros s tid Hid Hno. unfold get_tournament, with_db, try_ObjectId.
    rewrite Hid. run. by rewrite find_id_is_None.
  - intros s tid d Hid Hnd Hin Hd. unfold get_tournament, with_db, try_ObjectId.
    rewrite Hid. run. rewrite (find_id_is_unique tid _ d) by done.
    run. unfold serialize_doc. by rewrite Hd.
Qed.

(** C7, for a game string that is not empty: list_tournaments returns the
    empty list when the store is not configured; with a non-empty game
    string, exactly the stored tournaments whose game equals it, in stored
    order; with no game, or with the empty string, every stored
    tournament. The store is never changed. *)
Theorem list_tournaments_filter (game : option str) :
  list_tournaments game None = (Return [], None)
  ∧ (∀ s g, game = Some g → g ≠ [] →
       list_tournaments game (Some s)
       = (Return (serialize_doc <$>
                  filter (λ d, Tournament.game (body d) = g) (tournament s)),
          Some s))
  ∧ (∀ s, game = None ∨ game = Some [] →
       list_tournaments game (Some s) = (Return (serialize_doc <$> tournament s), Some s)).
Proof.
  split; [done|]. split.
  - intros s g -> Hg. unfold list_tournaments, with_db, get_documents, find.
    rewrite bool_decide_eq_false_2 by done. run. do 3 f_equal.
    unfold game_is. induction (tournament s) as [|d l IH]; [done|]. simpl.
    rewrite filter_cons. case_bool_decide; rewrite decide_bool_decide;
      case_bool_decide; try done; by rewrite IH.
  - intros s [-> | ->]; unfold list_tournaments, with_db, get_documents, find;
      run; do 3 f_equal; unfold any_doc; apply filter_all; done.
Qed.

(** ** Attaching a team *)

Lemma attach_team_run (tournament_id : str) (payload : AttachTeamRequest.t)
    (tid team_oid : oid) (tm : Doc Team.t) (s : Database) :
  ObjectId tournament_id = Some tid →
  ObjectId (AttachTeamRequest.team_id payload) = Some team_oid →
  List.find (_id_is team_oid) (team s) = Some tm →
  attach_team tournament_id payload (Some s)
  = (Return {| ok := true |},
     Some (mkDatabase
             (update_first (_id_is tid)
                (addToSet_team_ids (AttachTeamRequest.team_id payload)) (tournament s))
             (team s) (player s) (match_ s) (group s) (standing s) (generated s))).
Proof.
  intros Htid Hteam Hfind. unfold attach_team, with_db.
  rewrite Htid, Hteam. run. by rewrite Hfind.
Qed.

(** Whatever it answers, [attach_team] touches the tournaments only, and
    them only by the set insert. *)
Lemma attach_team_store (tournament_id : str) (payload : AttachTeamRequest.t)
    (s : Database) :
  (attach_team tournament_id payload (Some s)).2 = Some s
  ∨ ∃ tid,
      (attach_team tournament_id payload (Some s)).2
      = Some (mkDatabase
                (update_first (_id_is tid)
                   (addToSet_team_ids (AttachTeamRequest.team_id payload)) (tournament s))
                (team s) (player s) (match_ s) (group s) (standing s) (generated s)).
Proof.
  unfold attach_team, with_db.
  destruct (ObjectId tournament_id) as [tid|]; [|by left].
  destruct (ObjectId (AttachTeamRequest.team_id payload)) as [team_oid|]; [|by left].
  run. destruct (List.find (_id_is team_oid) (team s)); [|by left].
  right. by exists tid.
Qed.

Lemma addToSet_NoDup (x : str) (l : list str) : NoDup l → NoDup (addToSet x l).
Proof.
  intros Hl. unfold addToSet. case_bool_decide as Hx; [done|].
  apply NoDup_app. split; [done|]. split; [|apply NoDup_singleton].
  intros y Hy ->%list_elem_of_singleton. done.
Qed.

Lemma addToSet_idemp (x : str) (l : list str) : addToSet x (addToSet x l) = addToSet x l.
Proof.
  unfold addToSet. destruct (bool_decide (x ∈ l)) eqn:Hx.
  - by rewrite Hx.
  - rewrite bool_decide_eq_true_2; [done|].
    apply elem_of_app. right. by apply list_elem_of_singleton.
Qed.

Lemma update_first_twice {A} (i : oid) (u : A → A) (l : list (Doc A)) :
  (∀ a, u (u a) = u a) →
  update_first (_id_is i) u (update_first (_id_is i) u l) = update_first (_id_is i) u l.
Proof.
  intros Hu. induction l as [|d l IH]; [done|]. simpl.
  destruct (_id_is i d) eqn:Hd; simpl.
  - unfold _id_is in *. simpl. rewrite Hd. by rewrite Hu.
  - by rewrite Hd, IH.
Qed.

Lemma update_first_elem_of {A} (q : Doc A → bool) (u : A → A) (l : list (Doc A))
    (d' : Doc A) :
  d' ∈ update_first q u l → d' ∈ l ∨ ∃ d, d ∈ l ∧ d' = mkDoc (_id d) (u (body d)).
Proof.
  induction l as [|d l IH]; [by left|]. simpl. destruct (q d).
  - intros [->|Hin]%elem_of_cons.
    + right. exists d. split; [by left|done].
    + left. by right.
  - intros [->|Hin]%elem_of_cons; [left; by left|].
    destruct (IH Hin) as [?|(d0 & ? & ->)]; [left; by right|].
    right. exists d0. split; [by right|done].
Qed.

Lemma attach_team_no_duplicates (tournament_id : str) (payload : AttachTeamRequest.t)
    (s s' : Database) :
  no_duplicate_team_ids s →
  (attach_team tournament_id payload (Some s)).2 = Some s' →
  no_duplicate_team_ids s'.
Proof.
  intros Hs Hrun.
  destruct (attach_team_store tournament_id payload s) as [Heq|[tid Heq]];
    rewrite Heq in Hrun; injection Hrun as <-; [done|].
  intros t' Ht'. cbn [tournament] in Ht'.
  apply update_first_elem_of in Ht' as [Ht'|(t & Ht & ->)]; [by apply Hs|].
  simpl. apply addToSet_NoDup. by apply Hs.
Qed.

Lemma attach_teams_no_duplicates (calls : list (str * AttachTeamRequest.t))
    (s s' : Database) :
  no_duplicate_team_ids s →
  attach_teams calls (Some s) = Some s' →
  no_duplicate_team_ids s'.
Proof.
  revert s. induction calls as [|[tournament_id payload] calls IH]; intros s Hs.
  - by intros [= <-].
  - change (attach_teams ((tournament_id, payload) :: calls) (Some s))
      with (attach_teams calls (attach_team tournament_id payload (Some s)).2).
    destruct (attach_team_store tournament_id payload s) as [Heq|[tid Heq]];
      rewrite Heq; apply IH; [done|].
    eapply attach_team_no_duplicates; [exact Hs|exact Heq].
Qed.

(** C3: attach_team is an idempotent set insert. For a team id that
    references a stored team and a stored tournament, attaching answers ok
    and leaves the tournament with the team id appended to team_ids unless
    it is there already; attaching the same team id again answers ok and
    leaves the store as the first attach left it; and after any sequence
    of attach requests on a store in which no tournament lists a team id
    twice, no tournament lists a team id twice. *)
Theorem attach_team_set_insert (tournament_id : str) (payload : AttachTeamRequest.t)
    (tid team_oid : oid) (tm : Doc Team.t) (t : Doc Tournament.t) (s : Database) :
  ObjectId tournament_id = Some tid →
  ObjectId (AttachTeamRequest.team_id payload) = Some team_oid →
  List.find (_id_is team_oid) (team s) = Some tm →
  List.find (_id_is tid) (tournament s) = Some t →
  let x := AttachTeamRequest.team_id payload in
  let ids := Tournament.team_ids (body t) in
  ∃ (s1 : Database) (t1 : Doc Tournament.t),
    attach_team tournament_id payload (Some s) = (Return {| ok := true |}, Some s1)
    ∧ attach_team tournament_id payload (Some s1) = (Return {| ok := true |}, Some s1)
    ∧ List.find (_id_is tid) (tournament s1) = Some t1
    ∧ Tournament.team_ids (body t1) = (if bool_decide (x ∈ ids) then ids else ids ++ [x])
    ∧ (∀ calls s', no_duplicate_team_ids s →
         attach_teams calls (Some s) = Some s' → no_duplicate_team_ids s').
Proof.
  intros Htid Hteam Hftm Hft x ids.
  pose proof (attach_team_run tournament_id payload tid team_oid tm s Htid Hteam Hftm)
    as Hrun1.
  set (s1 := mkDatabase _ _ _ _ _ _ _) in Hrun1.
  pose proof (attach_team_run tournament_id payload tid team_oid tm s1 Htid Hteam Hftm)
    as Hrun2.
  cbn [s1 tournament team player match_ group standing generated] in Hrun2.
  rewrite update_first_twice in Hrun2
    by (intros [n g l]; unfold addToSet_team_ids; simpl; by rewrite addToSet_idemp).
  destruct (update_first_Some _ (addToSet_team_ids x) _ _ Hft)
    as (l1 & l2 & Hl & Hl1 & Hl').
  exists s1, (mkDoc (_id t) (addToSet_team_ids x (body t))).
  split; [done|]. split; [done|]. split; [|split].
  - unfold s1. cbn [tournament]. fold x. rewrite Hl'.
    rewrite find_app_None by done. simpl.
    apply find_id_is in Hft as [_ Hft]. unfold _id_is. simpl.
    by rewrite bool_decide_eq_true_2.
  - done.
  - intros calls s'. apply attach_teams_no_duplicates.
Qed.

(** C9: attach_team does not check that the tournament exists. With a
    well-formed tournament id that no stored tournament carries and the id
    of a stored team, it answers ok, not 404, and the store is unchanged. *)
Theorem attach_team_absent_tournament (tournament_id : str)
    (payload : AttachTeamRequest.t) (tid team_oid : oid) (tm : Doc Team.t)
    (s : Database) :
  ObjectId tournament_id = Some tid →
  (∀ d, d ∈ tournament s → _id d ≠ tid) →
  ObjectId (AttachTeamRequest.team_id payload) = Some team_oid →
  tm ∈ team s → _id tm = team_oid →
  attach_team tournament_id payload (Some s) = (Return {| ok := true |}, Some s).
Proof.
  intros Htid Hno Hteam Hin Htm.
  destruct (find_id_is_Some team_oid (team s) tm Hin Htm) as [tm' Hf].
  rewrite (attach_team_run tournament_id payload tid team_oid tm' s Htid Hteam Hf).
  rewrite update_first_None by (by apply find_id_is_None). by destruct s.
Qed.

(** * Further properties of the handlers *)

(** ** What is answered before anything is written *)

(** X1: generate_brackets answers 500 without a store, 400 on an id that
    does not parse and 404 on a well-formed id that no stored tournament
    carries, and in each case the store is as before. *)
Theorem generate_brackets_errors (tournament_id : str) :
  generate_brackets tournament_id None
  = (Raise (HTTPException 500 "Database not configured"), None)
  ∧ (∀ s, ObjectId tournament_id = None →
       generate_brackets tournament_id (Some s)
       = (Raise (HTTPException 400 "Invalid tournament id"), Some s))
  ∧ (∀ s tid, ObjectId tournament_id = Some tid →
       (∀ d, d ∈ tournament s → _id d ≠ tid) →
       generate_brackets tournament_id (Some s)
       = (Raise (HTTPException 404 "Tournament not found"), Some s)).
Proof.
  split; [done|]. split.
  - intros s Hid. unfold generate_brackets, with_db, try_ObjectId. by rewrite Hid.
  - intros s tid Hid Hno. unfold generate_brackets, with_db, try_ObjectId.
    rewrite Hid. run. by rewrite find_id_is_None.
Qed.

(** X2: generate_groups answers 500 without a store, 400 on an id that
    does not parse and 404 on a well-formed id that no stored tournament
    carries, whatever the body holds (zero groups included), and in each
    case the store is as before. *)
Theorem generate_groups_errors (tournament_id : str) (payload : GroupGenerationRequest.t) :
  generate_groups tournament_id payload None
  = (Raise (HTTPException 500 "Database not configured"), None)
  ∧ (∀ s, ObjectId tournament_id = None →
       generate_groups tournament_id payload (Some s)
       = (Raise (HTTPException 400 "Invalid tournament id"), Some s))
  ∧ (∀ s tid, ObjectId tournament_id = Some tid →
       (∀ d, d ∈ tournament s → _id d ≠ tid) →
       generate_groups tournament_id payload (Some s)
       = (Raise (HTTPException 404 "Tournament not found"), Some s)).
Proof.
  split; [done|]. split.
  - intros s Hid. unfold generate_groups, with_db, try_ObjectId. by rewrite Hid.
  - intros s tid Hid Hno. unfold generate_groups, with_db, try_ObjectId.
    rewrite Hid. run. by rewrite find_id_is_None.
Qed.

(** X3: attach_team answers 500 without a store; 400 when the tournament
    id or the team id does not parse; and 404 when both parse and no
    stored team carries the team id, whether the tournament exists or
    not. In each case the store is as before. *)
Theorem attach_team_errors (tournament_id : str) (payload : AttachTeamRequest.t) :
  attach_team tournament_id payload None
  = (Raise (HTTPException 500 "Database not configured"), None)
  ∧ (∀ s, ObjectId tournament_id = None ∨ ObjectId (AttachTeamRequest.team_id payload) = None →
       attach_team tournament_id payload (Some s)
       = (Raise (HTTPException 400 "Invalid IDs"), Some s))
  ∧ (∀ s tid team_oid, ObjectId tournament_id = Some tid →
       ObjectId (AttachTeamRequest.team_id payload) = Some team_oid →
       (∀ d, d ∈ team s → _id d ≠ team_oid) →
       attach_team tournament_id payload (Some s)
       = (Raise (HTTPException 404 "Team not found"), Some s)).
Proof.
  split; [done|]. split.
  - intros s Hbad. unfold attach_team, with_db.
    destruct (ObjectId tournament_id) as [tid|]; [|done].
    destruct Hbad as [?|Hteam]; [done|]. by rewrite Hteam.
  - intros s tid team_oid Htid Hteam Hno. unfold attach_team, with_db.
    rewrite Htid, Hteam. run. by rewrite find_id_is_None.
Qed.

(** X4: update_match and update_standing answer 500 without a store and
    400 on an id that does not parse, the store being as before; the id
    is checked first, so an empty body with a bad id is refused too. *)
Theorem update_errors (match_id standing_id : str)
    (pm : UpdateMatchRequest.t) (ps : UpdateStandingRequest.t) :
  update_match match_id pm None
  = (Raise (HTTPException 500 "Database not configured"), None)
  ∧ update_standing standing_id ps None
    = (Raise (HTTPException 500 "Database not configured"), None)
  ∧ (∀ s, ObjectId match_id = None →
       update_match match_id pm (Some s)
       = (Raise (HTTPException 400 "Invalid match id"), Some s))
  ∧ (∀ s, ObjectId standing_id = None →
       update_standing standing_id ps (Some s)
       = (Raise (HTTPException 400 "Invalid standing id"), Some s)).
Proof.
  split; [done|]. split; [done|]. split.
  - intros s Hid. unfold update_match, with_db, try_ObjectId. by rewrite Hid.
  - intros s Hid. unfold update_standing, with_db, try_ObjectId. by rewrite Hid.
Qed.

(** ** More on brackets *)

(** X5: on a stored tournament with no attached team, generate_brackets
    answers created = 0 and writes nothing. *)
Theorem generate_brackets_no_teams (tournament_id : str) (tid : oid)
    (t : Doc Tournament.t) (s : Database) :
  ObjectId tournament_id = Some tid →
  List.find (_id_is tid) (tournament s) = Some t →
  Tournament.team_ids (body t) = [] →
  generate_brackets tournament_id (Some s) = (Return {| created := 0 |}, Some s).
Proof.
  intros Hid Hfind Hnone.
  rewrite (generate_brackets_run tournament_id tid t s Hid Hfind), Hnone. simpl.
  unfold stamp. simpl. rewrite app_nil_r, Nat.add_0_r. by destruct s.
Qed.

Lemma bind_body_stamp {A B} (f : A → list B) (n : nat) (l : list A) :
  (d ← stamp n l; f (body d)) = l ≫= f.
Proof. rewrite <- (body_stamp n l) at 2. by rewrite list_fmap_bind. Qed.

Lemma pairs_flatten {A} (n : nat) (l : list A) :
  (length l ≤ n)%nat →
  (k ← seq 0 ((length l + 1) / 2)%nat;
   option_list (l !! (2 * k)%nat) ++ option_list (l !! (2 * k + 1)%nat)) = l.
Proof.
  revert l. induction n as [|n IH]; intros l Hl.
  { by destruct l; [|simpl in Hl; lia]. }
  destruct l as [|a [|b l]]; [done|done|].
  replace (length (a :: b :: l) + 1)%nat with (length l + 1 + 1 * 2)%nat by (simpl; lia).
  rewrite Nat.div_add by done. rewrite Nat.add_1_r. cbn [seq].
  rewrite bind_cons. simpl. do 2 f_equal.
  rewrite <- fmap_S_seq, list_fmap_bind.
  rewrite <- (IH l) at 2 by (simpl in Hl; lia).
  apply list_bind_ext; [|done]. intros k. simpl.
  by replace (k + S (k + 0))%nat with (S (k + (k + 0))) by lia.
Qed.

(** X6: every attached team plays exactly once. On a stored tournament,
    the team ids held by the matches that generate_brackets appends, read
    match by match, first team first and nulls left out, are the
    tournament's team_ids in their stored order. *)
Theorem generate_brackets_covers_teams (tournament_id : str) (tid : oid)
    (t : Doc Tournament.t) (s : Database) :
  ObjectId tournament_id = Some tid →
  List.find (_id_is tid) (tournament s) = Some t →
  ∃ (new : list (Doc Match.t)) (s' : Database),
    generate_brackets tournament_id (Some s)
    = (Return {| created := length new |}, Some s')
    ∧ match_ s' = match_ s ++ new
    ∧ (d ← new; teams_of (body d)) = Tournament.team_ids (body t).
Proof.
  intros Hid Hfind.
  pose proof (generate_brackets_run tournament_id tid t s Hid Hfind) as Hrun.
  cbv zeta in Hrun.
  set (ids := Tournament.team_ids (body t)) in *.
  set (matches := (λ k : nat, Match.mk tournament_id 1 (ids !! (2 * k)%nat)
                     (ids !! (2 * k + 1)%nat) None)
                  <$> seq 0 ((length ids + 1) / 2)%nat) in Hrun.
  eexists (stamp (generated s) matches), _.
  rewrite length_stamp. split; [exact Hrun|]. split; [done|].
  rewrite bind_body_stamp. unfold matches. rewrite list_fmap_bind.
  rewrite <- (pairs_flatten (length ids) ids) at 2 by done.
  by apply list_bind_ext.
Qed.

(** ** More on attaching teams *)

Lemma attach_team_found (tournament_id x : str) (tid o : oid) (tm : Doc Team.t)
    (t : Doc Tournament.t) (s : Database) :
  ObjectId tournament_id = Some tid →
  ObjectId x = Some o →
  List.find (_id_is o) (team s) = Some tm →
  List.find (_id_is tid) (tournament s) = Some t →
  ∃ s1, attach_team tournament_id (AttachTeamRequest.mk x) (Some s)
        = (Return {| ok := true |}, Some s1)
        ∧ List.find (_id_is tid) (tournament s1)
          = Some (mkDoc (_id t) (addToSet_team_ids x (body t)))
        ∧ (team s1, player s1, match_ s1, group s1, standing s1, generated s1)
          = (team s, player s, match_ s, group s, standing s, generated s).
Proof.
  intros Htid Hx Htm Ht.
  eexists. split; [by apply (attach_team_run _ (AttachTeamRequest.mk x) tid o tm)|].
  cbn [tournament team player match_ group standing generated AttachTeamRequest.team_id].
  split; [|done].
  destruct (update_first_Some _ (addToSet_team_ids x) _ _ Ht) as (l1 & l2 & _ & Hl1 & ->).
  rewrite find_app_None by done. simpl.
  apply find_id_is in Ht as [_ Ht]. unfold _id_is. simpl.
  by rewrite bool_decide_eq_true_2.
Qed.

Lemma attach_each_run (tournament_id : str) (tid : oid) (xs : list str) :
  ObjectId tournament_id = Some tid →
  NoDup xs →
  ∀ (t : Doc Tournament.t) (s : Database),
    List.find (_id_is tid) (tournament s) = Some t →
    (∀ x, x ∈ xs → ∃ o tm, ObjectId x = Some o ∧ List.find (_id_is o) (team s) = Some tm) →
    (∀ x, x ∈ xs → x ∉ Tournament.team_ids (body t)) →
    ∃ s', attach_teams (attach_each tournament_id xs) (Some s) = Some s'
          ∧ List.find (_id_is tid) (tournament s')
            = Some (mkDoc (_id t)
                      (Tournament.mk (Tournament.name (body t)) (Tournament.game (body t))
                         (Tournament.team_ids (body t) ++ xs)))
          ∧ (team s', player s', match_ s', group s', standing s', generated s')
            = (team s, player s, match_ s, group s, standing s, generated s).
Proof.
  intros Htid. induction 1 as [|x xs Hx Hxs IH]; intros t s Ht Hteams Hnew.
  - exists s. rewrite app_nil_r. split; [done|]. split; [|done]. by destruct t as [i []].
  - destruct (Hteams x) as (o & tm & Ho & Htm); [by left|].
    destruct (attach_team_found tournament_id x tid o tm t s Htid Ho Htm Ht)
      as (s1 & Hrun & Ht1 & Hframe).
    injection Hframe as Hteam1 Hplayer1 Hmatch1 Hgroup1 Hstanding1 Hgen1.
    destruct (IH _ s1 Ht1) as (s' & Hrun' & Ht' & Hframe').
    + intros y Hy. rewrite Hteam1. apply Hteams. by right.
    + intros y Hy. unfold addToSet_team_ids, addToSet. simpl.
      rewrite bool_decide_eq_false_2 by (apply Hnew; by left).
      intros [Hin|Heq%list_elem_of_singleton]%elem_of_app; [|by subst].
      by apply (Hnew y); [right|].
    + exists s'.
      change (attach_teams (attach_each tournament_id (x :: xs)) (Some s))
        with (attach_teams (attach_each tournament_id xs)
                (attach_team tournament_id (AttachTeamRequest.mk x) (Some s)).2).
      rewrite Hrun. split; [exact Hrun'|]. split; [|congruence].
      rewrite Ht'. unfold addToSet_team_ids, addToSet. simpl.
      rewrite bool_decide_eq_false_2 by (apply Hnew; by left).
      by rewrite <- (assoc_L (++)).
Qed.

(** X7: team ids that are new to a stored tournament, pairwise different
    and each the id of a stored team, attached one after the other, end up
    at the end of team_ids in the order of the requests; the tournament
    keeps its identifier, name and game, and every other collection is as
    before. *)
Theorem attach_teams_in_order (tournament_id : str) (tid : oid) (xs : list str)
    (t : Doc Tournament.t) (s : Database) :
  ObjectId tournament_id = Some tid →
  NoDup xs →
  List.find (_id_is tid) (tournament s) = Some t →
  (∀ x, x ∈ xs → ∃ o tm, ObjectId x = Some o ∧ List.find (_id_is o) (team s) = Some tm) →
  (∀ x, x ∈ xs → x ∉ Tournament.team_ids (body t)) →
  ∃ s', attach_teams (attach_each tournament_id xs) (Some s) = Some s'
        ∧ List.find (_id_is tid) (tournament s')
          = Some (mkDoc (_id t)
                    (Tournament.mk (Tournament.name (body t)) (Tournament.game (body t))
                       (Tournament.team_ids (body t) ++ xs)))
        ∧ (team s', player s', match_ s', group s', standing s', generated s')
          = (team s, player s, match_ s, group s, standing s, generated s).
Proof. intros Htid Hxs Ht. by apply attach_each_run. Qed.

(** X8: entries of team_ids are told apart as strings, not as teams. Two
    different spellings that parse to the identifier of one stored team,
    both new to a stored tournament and attached one after the other, are
    both appended: the team is listed twice. *)
Theorem attach_team_two_spellings (tournament_id x y : str) (tid o : oid)
    (tm : Doc Team.t) (t : Doc Tournament.t) (s : Database) :
  ObjectId tournament_id = Some tid →
  List.find (_id_is tid) (tournament s) = Some t →
  ObjectId x = Some o →
  ObjectId y = Some o →
  x ≠ y →
  List.find (_id_is o) (team s) = Some tm →
  x ∉ Tournament.team_ids (body t) →
  y ∉ Tournament.team_ids (body t) →
  ∃ s' t', attach_teams (attach_each tournament_id [x; y]) (Some s) = Some s'
           ∧ List.find (_id_is tid) (tournament s') = Some t'
           ∧ Tournament.team_ids (body t') = Tournament.team_ids (body t) ++ [x; y].
Proof.
  intros Htid Ht Hx Hy Hxy Htm Hnx Hny.
  destruct (attach_each_run tournament_id tid [x; y] Htid) with (t := t) (s := s)
    as (s' & Hrun & Ht' & _); [|done| | |].
  - apply NoDup_cons. split; [|apply NoDup_singleton].
    by intros ->%list_elem_of_singleton.
  - intros z Hz. apply elem_of_cons in Hz as [->|Hz];
      [|apply list_elem_of_singleton in Hz as ->]; eauto.
  - intros z Hz. by apply elem_of_cons in Hz as [->|Hz];
      [|apply list_elem_of_singleton in Hz as ->].
  - by eexists s', _.
Qed.

(** X9: two different team ids of stored teams attached to a stored
    tournament without teams, then generate_brackets: it answers
    created = 1 and appends one match, of round 1, the first attached team
    against the second, with no winner. *)
Theorem attach_two_then_brackets (tournament_id a b : str) (tid : oid)
    (t : Doc Tournament.t) (s : Database) :
  ObjectId tournament_id = Some tid →
  List.find (_id_is tid) (tournament s) = Some t →
  Tournament.team_ids (body t) = [] →
  a ≠ b →
  (∀ x, x ∈ [a; b] → ∃ o tm, ObjectId x = Some o ∧ List.find (_id_is o) (team s) = Some tm) →
  ∃ s2 s3 m,
    attach_teams (attach_each tournament_id [a; b]) (Some s) = Some s2
    ∧ generate_brackets tournament_id (Some s2) = (Return {| created := 1 |}, Some s3)
    ∧ match_ s3 = match_ s ++ [m]
    ∧ body m = Match.mk tournament_id 1 (Some a) (Some b) None.
Proof.
  intros Htid Ht Hnone Hab Hteams.
  destruct (attach_each_run tournament_id tid [a; b] Htid) with (t := t) (s := s)
    as (s2 & Hrun & Ht2 & Hframe); [|done|done| |].
  - apply NoDup_cons. split; [|apply NoDup_singleton].
    by intros ->%list_elem_of_singleton.
  - intros z _. rewrite Hnone. apply not_elem_of_nil.
  - injection Hframe as _ _ Hmatch _ _ _.
    rewrite Hnone in Ht2.
    pose proof (generate_brackets_run tournament_id tid _ s2 Htid Ht2) as Hgen.
    eexists s2, _, _. split; [exact Hrun|]. split; [exact Hgen|].
    cbn [match_]. rewrite Hmatch. done.
Qed.

(** X10: after attaching the id of a stored team to a stored tournament,
    get_tournament on the same id returns that tournament with its name
    and game as before and the team id in team_ids: appended when it was
    not there, team_ids as before when it was. *)
Theorem attach_then_get (tournament_id x : str) (tid o : oid) (tm : Doc Team.t)
    (t : Doc Tournament.t) (s : Database) :
  ObjectId tournament_id = Some tid →
  ObjectId x = Some o →
  List.find (_id_is o) (team s) = Some tm →
  List.find (_id_is tid) (tournament s) = Some t →
  let ids := Tournament.team_ids (body t) in
  ∃ s1, attach_team tournament_id (AttachTeamRequest.mk x) (Some s)
        = (Return {| ok := true |}, Some s1)
        ∧ get_tournament tournament_id (Some s1)
          = (Return (Serialized.mk (oid_str tid)
                       (Tournament.mk (Tournament.name (body t)) (Tournament.game (body t))
                          (if bool_decide (x ∈ ids) then ids else ids ++ [x]))),
             Some s1)
        ∧ x ∈ (if bool_decide (x ∈ ids) then ids else ids ++ [x]).
Proof.
  intros Htid Hx Htm Ht ids.
  destruct (attach_team_found tournament_id x tid o tm t s Htid Hx Htm Ht)
    as (s1 & Hrun & Ht1 & _).
  exists s1. split; [exact Hrun|]. split.
  - unfold get_tournament, with_db, try_ObjectId. rewrite Htid. run. rewrite Ht1. run.
    unfold serialize_doc. simpl. apply find_id_is in Ht as [_ ->]. done.
  - case_bool_decide; [done|]. apply elem_of_app. right. by left.
Qed.

(** ** More on groups and standings *)

Lemma range_nonpos (n : Z) : n ≤ 0 → range n = [].
Proof. intros Hn. unfold range. by replace (Z.to_nat n) with 0%nat by lia. Qed.

(** X11: a negative number_of_groups is no error. On a stored tournament
    generate_groups then answers groups_created = 0 and standing_slots = 0
    and writes nothing. *)
Theorem generate_groups_negative (tournament_id : str) (tid : oid)
    (t : Doc Tournament.t) (s : Database) (T G : Z) :
  ObjectId tournament_id = Some tid →
  List.find (_id_is tid) (tournament s) = Some t →
  G < 0 →
  generate_groups tournament_id (GroupGenerationRequest.mk T G) (Some s)
  = (Return {| groups_created := 0; standing_slots := 0 |}, Some s).
Proof.
  intros Hid Hfind HG.
  rewrite (generate_groups_run tournament_id tid t s T G [] Hid Hfind);
    [|by rewrite range_nonpos by lia|by intros g ?%elem_of_nil|lia].
  unfold stamp. simpl. rewrite !app_nil_r, !Nat.add_0_r. by destruct s.
Qed.

(** X12: how many teams get a slot. On a stored tournament and for
    1 <= G <= 55231 groups: with at least as many teams as groups,
    standing_slots is T - (T mod G), so fewer than G teams are left
    without a slot; with fewer teams than groups it is G, one slot per
    group. *)
Theorem standing_slots_and_teams (tournament_id : str) (tid : oid)
    (t : Doc Tournament.t) (s : Database) (T G : Z) :
  ObjectId tournament_id = Some tid →
  List.find (_id_is tid) (tournament s) = Some t →
  1 ≤ G ≤ 55231 →
  ∃ r s', generate_groups tournament_id (GroupGenerationRequest.mk T G) (Some s)
          = (Return r, Some s')
          ∧ (G ≤ T → Z.of_nat (standing_slots r) = T - T `mod` G
                     ∧ T - G < Z.of_nat (standing_slots r) ≤ T)
          ∧ (T < G → Z.of_nat (standing_slots r) = G).
Proof.
  intros Hid Hfind HG.
  pose proof (generate_groups_run tournament_id tid t s T G _ Hid Hfind
                (group_names_Return G ltac:(lia)) (λ g, group_names_utf8 G g ltac:(lia))
                ltac:(lia)) as Hrun.
  cbv zeta in Hrun. eexists _, _. split; [exact Hrun|].
  cbn [standing_slots]. rewrite length_bind_replicate, length_fmap, length_range.
  pose proof (Z.div_mod T G ltac:(lia)) as Hdm.
  pose proof (Z.mod_pos_bound T G ltac:(lia)) as Hmod.
  split.
  - intros HT. assert (1 ≤ T `div` G) by (apply Z.div_le_lower_bound; lia).
    rewrite Z.max_r by lia. nia.
  - intros HT. assert (T `div` G ≤ 0).
    { destruct (Z.le_gt_cases 1 (T `div` G)) as [Hge|]; [|lia].
      assert (G * 1 ≤ G * (T `div` G)) by (apply Z.mul_le_mono_nonneg_l; lia). lia. }
    rewrite Z.max_l by lia. lia.
Qed.

Lemma group_names_NoDup (G : Z) : NoDup ((λ i, [65 + i]) <$> range G).
Proof.
  apply NoDup_fmap_2_strong.
  - intros i j _ _ Hij. injection Hij. lia.
  - unfold range. apply NoDup_fmap_2; [|apply NoDup_seq]. intros i j. lia.
Qed.

Lemma length_filter_stamp {A K} `{!EqDecision K} (key : A → K) (g : K) (n : nat)
    (l : list A) :
  length (filter (λ d, key (body d) = g) (stamp n l))
  = length (filter (λ a, key a = g) l).
Proof.
  rewrite <- (body_stamp n l) at 2. generalize (stamp n l). intros l'.
  induction l' as [|d l' IH]; [done|].
  rewrite fmap_cons, !filter_cons. simpl. case_decide; simpl; by rewrite IH.
Qed.

Lemma slots_of_one_group {A B} (key : B → A) `{!EqDecision A} (e : A → B) (m : nat)
    (names : list A) (g : A) :
  (∀ a, key (e a) = a) → NoDup names → g ∈ names →
  length (filter (λ b, key b = g) (a ← names; replicate m (e a))) = m.
Proof.
  intros Hkey.
  assert (Hrep : ∀ b, length (filter (λ x, key x = g) (replicate m (e b)))
                      = if decide (b = g) then m else 0%nat).
  { intros b. destruct (decide (b = g)) as [Heq|Hne].
    - induction m as [|m IHm]; [done|]. simpl.
      rewrite filter_cons, Hkey. rewrite decide_True by done. simpl. by rewrite IHm.
    - induction m as [|m IHm]; [done|]. simpl.
      rewrite filter_cons, Hkey. by rewrite decide_False by done. }
  assert (Hrest : ∀ l, g ∉ l →
            length (filter (λ x, key x = g) (a ← l; replicate m (e a))) = 0%nat).
  { induction l as [|b l IHl]; intros Hl; [done|].
    rewrite bind_cons, filter_app, length_app, Hrep.
    rewrite decide_False by (intros ->; apply Hl; by left).
    rewrite IHl; [done|]. intros ?. apply Hl. by right. }
  induction 1 as [|a names Ha Hnames IH]; intros Hg.
  { by apply elem_of_nil in Hg. }
  rewrite bind_cons, filter_app, length_app, Hrep.
  destruct (decide (a = g)) as [->|Hne].
  - rewrite Hrest by done. lia.
  - apply elem_of_cons in Hg as [->|Hg]; [done|]. by rewrite IH.
Qed.

(** X13: the standings that generate_groups creates belong to the groups
    it creates. On a stored tournament and for a number of groups that is
    not zero and at most 55231: the new groups have pairwise different
    names and carry the tournament id; every new standing carries the
    tournament id and the name of one of the new groups; and each new
    group is named by exactly max(1, T // G) of the new standings. *)
Theorem standings_reference_groups (tournament_id : str) (tid : oid)
    (t : Doc Tournament.t) (s : Database) (T G : Z) :
  ObjectId tournament_id = Some tid →
  List.find (_id_is tid) (tournament s) = Some t →
  G ≠ 0 → G ≤ 55231 →
  ∃ r s' (new_groups : list (Doc Group.t)) (new_standings : list (Doc Standing.t)),
    generate_groups tournament_id (GroupGenerationRequest.mk T G) (Some s)
    = (Return r, Some s')
    ∧ group s' = group s ++ new_groups
    ∧ standing s' = standing s ++ new_standings
    ∧ NoDup (Group.name ∘ body <$> new_groups)
    ∧ (∀ g, g ∈ new_groups → Group.tournament_id (body g) = tournament_id)
    ∧ (∀ st, st ∈ new_standings →
         Standing.tournament_id (body st) = tournament_id
         ∧ ∃ g, g ∈ new_groups ∧ Standing.group_name (body st) = Group.name (body g))
    ∧ (∀ g, g ∈ new_groups →
         length (filter (λ st, Standing.group_name (body st) = Group.name (body g))
                   new_standings)
         = Z.to_nat (Z.max 1 (T `div` G))).
Proof.
  intros Hid Hfind HG0 HG.
  pose proof (generate_groups_run tournament_id tid t s T G _ Hid Hfind
                (group_names_Return G ltac:(lia)) (λ g, group_names_utf8 G g HG) HG0) as Hrun.
  cbv zeta in Hrun.
  set (names := (λ i, [65 + i]) <$> range G) in Hrun.
  set (m := Z.to_nat (Z.max 1 (T `div` G))) in *.
  set (groups := Group.mk tournament_id <$> names) in Hrun.
  set (standings := g ← names; replicate m (empty_standing tournament_id g)) in Hrun.
  assert (Hnames : NoDup names) by apply group_names_NoDup.
  assert (Hgnames : Group.name ∘ body <$> stamp (generated s) groups = names).
  { rewrite list_fmap_compose, body_stamp. unfold groups.
    rewrite <- list_fmap_compose. clear. by induction names as [|?? IH]; [|rewrite fmap_cons, IH]. }
  eexists _, _, (stamp (generated s) groups), (stamp (generated s + length groups) standings).
  split; [exact Hrun|]. split; [done|]. split; [done|].
  split; [by rewrite Hgnames|]. split; [|split].
  - intros g Hg. apply (list_elem_of_fmap_2 body) in Hg. rewrite body_stamp in Hg.
    by apply list_elem_of_fmap in Hg as (? & -> & _).
  - intros st Hst. apply (list_elem_of_fmap_2 body) in Hst. rewrite body_stamp in Hst.
    apply list_elem_of_bind in Hst as (name & Hst & Hname).
    apply elem_of_replicate in Hst as [-> _]. split; [done|].
    rewrite <- Hgnames in Hname.
    apply list_elem_of_fmap in Hname as (g & -> & Hg). by exists g.
  - intros g Hg.
    rewrite (length_filter_stamp Standing.group_name).
    apply (slots_of_one_group Standing.group_name); [done|done|].
    rewrite <- Hgnames. by apply (list_elem_of_fmap_2 (Group.name ∘ body)).
Qed.

(** X14: generate_groups has no idempotence guard either. Called twice in
    succession on a stored tournament, for 1 <= G <= 55231, both calls
    give the same answer and the second appends groups and standings with
    the same fields, names included, as the first. *)
Theorem generate_groups_twice (tournament_id : str) (tid : oid)
    (t : Doc Tournament.t) (s : Database) (T G : Z) :
  ObjectId tournament_id = Some tid →
  List.find (_id_is tid) (tournament s) = Some t →
  1 ≤ G ≤ 55231 →
  ∃ r s1 s2 (g1 g2 : list (Doc Group.t)) (st1 st2 : list (Doc Standing.t)),
    generate_groups tournament_id (GroupGenerationRequest.mk T G) (Some s)
    = (Return r, Some s1)
    ∧ generate_groups tournament_id (GroupGenerationRequest.mk T G) (Some s1)
      = (Return r, Some s2)
    ∧ group s2 = group s ++ g1 ++ g2
    ∧ standing s2 = standing s ++ st1 ++ st2
    ∧ body <$> g2 = body <$> g1
    ∧ body <$> st2 = body <$> st1
    ∧ Z.of_nat (length g1) = G.
Proof.
  intros Hid Hfind HG.
  pose proof (generate_groups_run tournament_id tid t s T G _ Hid Hfind
                (group_names_Return G ltac:(lia)) (λ g, group_names_utf8 G g ltac:(lia))
                ltac:(lia)) as Hrun1.
  cbv zeta in Hrun1.
  set (s1 := mkDatabase _ _ _ _ _ _ _) in Hrun1.
  pose proof (generate_groups_run tournament_id tid t s1 T G _ Hid Hfind
                (group_names_Return G ltac:(lia)) (λ g, group_names_utf8 G g ltac:(lia))
                ltac:(lia)) as Hrun2.
  cbv zeta in Hrun2.
  set (groups := Group.mk tournament_id <$> ((λ i, [65 + i]) <$> range G)) in *.
  set (standings := g ← (λ i, [65 + i]) <$> range G;
                    replicate (Z.to_nat (Z.max 1 (T `div` G)))
                      (empty_standing tournament_id g)) in *.
  exists {| groups_created := length groups; standing_slots := length standings |}, s1.
  eexists.
  exists (stamp (generated s) groups), (stamp (generated s1) groups).
  exists (stamp (generated s + length groups) standings),
         (stamp (generated s1 + length groups) standings).
  split; [exact Hrun1|]. split; [exact Hrun2|].
  cbn [group standing s1].
  split; [by rewrite <- (assoc_L (++))|]. split; [by rewrite <- (assoc_L (++))|].
  rewrite !body_stamp. split; [done|]. split; [done|].
  unfold groups. rewrite length_stamp, !length_fmap, length_range. lia.
Qed.

(** ** Listings after a generation *)

Lemma list_groups_run (tournament_id : str) (s : Database) :
  list_groups tournament_id (Some s)
  = (Return (serialize_doc <$>
             List.filter (λ d, bool_decide (Group.tournament_id (body d) = tournament_id))
               (group s)),
     Some s).
Proof. done. Qed.

Lemma list_standings_run (tournament_id : str) (s : Database) :
  list_standings tournament_id (Some s)
  = (Return (serialize_doc <$>
             List.filter (λ d, bool_decide (Standing.tournament_id (body d) = tournament_id))
               (standing s)),
     Some s).
Proof. done. Qed.

Lemma filter_none {A} (q : A → bool) (l : list A) :
  (∀ x, x ∈ l → q x = false) → List.filter q l = [].
Proof.
  induction l as [|a l IH]; intros Hnone; [done|]. simpl.
  rewrite (Hnone a) by (by left). apply IH. intros x Hx. apply Hnone. by right.
Qed.

Lemma filter_stamp_same {A} (key : A → str) (g : str) (n : nat) (l : list A) :
  (∀ a, a ∈ l → key a = g) →
  List.filter (λ d, bool_decide (key (body d) = g)) (stamp n l) = stamp n l.
Proof.
  intros Hl. apply filter_all. intros d Hd. apply bool_decide_eq_true.
  apply Hl. rewrite <- (body_stamp n l). by apply list_elem_of_fmap_2.
Qed.

Lemma filter_stamp_other {A} (key : A → str) (g other : str) (n : nat) (l : list A) :
  other ≠ g → (∀ a, a ∈ l → key a = g) →
  List.filter (λ d, bool_decide (key (body d) = other)) (stamp n l) = [].
Proof.
  intros Hne Hl. apply filter_none. intros d Hd. apply bool_decide_eq_false.
  rewrite (Hl (body d)); [done|]. rewrite <- (body_stamp n l). by apply list_elem_of_fmap_2.
Qed.

(** X15: what the listings show after generate_brackets on a stored
    tournament. list_matches on the same id string returns what it
    returned before followed by the new matches, as many as created says;
    list_matches on any other id string, and list_groups and
    list_standings on any id string, return what they returned before. *)
Theorem generate_brackets_listing (tournament_id other : str) (tid : oid)
    (t : Doc Tournament.t) (s : Database) :
  ObjectId tournament_id = Some tid →
  List.find (_id_is tid) (tournament s) = Some t →
  other ≠ tournament_id →
  ∃ r s' before (new : list (Doc Match.t)),
    generate_brackets tournament_id (Some s) = (Return r, Some s')
    ∧ list_matches tournament_id (Some s) = (Return before, Some s)
    ∧ list_matches tournament_id (Some s')
      = (Return (before ++ (serialize_doc <$> new)), Some s')
    ∧ length new = created r
    ∧ (list_matches other (Some s')).1 = (list_matches other (Some s)).1
    ∧ (∀ any, (list_groups any (Some s')).1 = (list_groups any (Some s)).1
              ∧ (list_standings any (Some s')).1 = (list_standings any (Some s)).1).
Proof.
  intros Hid Hfind Hother.
  pose proof (generate_brackets_run tournament_id tid t s Hid Hfind) as Hrun.
  cbv zeta in Hrun.
  set (matches := (λ k : nat, Match.mk tournament_id 1 _ _ None) <$> _) in Hrun.
  assert (Hall : ∀ m, m ∈ matches → Match.tournament_id m = tournament_id).
  { intros m Hm. unfold matches in Hm. by apply list_elem_of_fmap in Hm as (k & -> & _). }
  eexists _, _, _, (stamp (generated s) matches).
  split; [exact Hrun|]. split; [apply list_matches_run|].
  rewrite !list_matches_run. cbn [match_ fst].
  rewrite !List.filter_app, (filter_stamp_same Match.tournament_id) by done.
  rewrite (filter_stamp_other Match.tournament_id tournament_id) by done.
  rewrite fmap_app, app_nil_r, length_stamp. done.
Qed.

(** X16: what the listings show after generate_groups on a stored
    tournament, for a number of groups that is not zero and at most
    55231. list_groups and list_standings on the same id string return
    what they returned before followed by the new groups and the new
    standings, as many as the answer says; on any other id string they
    return what they returned before, and so does list_matches on any id
    string. *)
Theorem generate_groups_listing (tournament_id other : str) (tid : oid)
    (t : Doc Tournament.t) (s : Database) (T G : Z) :
  ObjectId tournament_id = Some tid →
  List.find (_id_is tid) (tournament s) = Some t →
  G ≠ 0 → G ≤ 55231 →
  other ≠ tournament_id →
  ∃ r s' groups_before standings_before
      (new_groups : list (Doc Group.t)) (new_standings : list (Doc Standing.t)),
    generate_groups tournament_id (GroupGenerationRequest.mk T G) (Some s)
    = (Return r, Some s')
    ∧ list_groups tournament_id (Some s) = (Return groups_before, Some s)
    ∧ list_standings tournament_id (Some s) = (Return standings_before, Some s)
    ∧ list_groups tournament_id (Some s')
      = (Return (groups_before ++ (serialize_doc <$> new_groups)), Some s')
    ∧ list_standings tournament_id (Some s')
      = (Return (standings_before ++ (serialize_doc <$> new_standings)), Some s')
    ∧ length new_groups = groups_created r
    ∧ length new_standings = standing_slots r
    ∧ (list_groups other (Some s')).1 = (list_groups other (Some s)).1
    ∧ (list_standings other (Some s')).1 = (list_standings other (Some s)).1
    ∧ (∀ any, (list_matches any (Some s')).1 = (list_matches any (Some s)).1).
Proof.
  intros Hid Hfind HG0 HG Hother.
  pose proof (generate_groups_run tournament_id tid t s T G _ Hid Hfind
                (group_names_Return G ltac:(lia)) (λ g, group_names_utf8 G g HG) HG0) as Hrun.
  cbv zeta in Hrun.
  set (names := (λ i, [65 + i]) <$> range G) in Hrun.
  set (groups := Group.mk tournament_id <$> names) in Hrun.
  set (standings := g ← names; replicate _ (empty_standing tournament_id g)) in Hrun.
  assert (Hg : ∀ g, g ∈ groups → Group.tournament_id g = tournament_id).
  { intros g Hg. unfold groups in Hg. by apply list_elem_of_fmap in Hg as (? & -> & _). }
  assert (Hst : ∀ st, st ∈ standings → Standing.tournament_id st = tournament_id).
  { intros st Hst. unfold standings in Hst.
    apply list_elem_of_bind in Hst as (g & Hst & _).
    by apply elem_of_replicate in Hst as [-> _]. }
  eexists _, _, _, _, (stamp (generated s) groups),
    (stamp (generated s + length groups) standings).
  split; [exact Hrun|]. split; [apply list_groups_run|].
  split; [apply list_standings_run|].
  rewrite !list_groups_run, !list_standings_run. cbn [group standing match_ fst].
  rewrite !List.filter_app.
  rewrite (filter_stamp_same Group.tournament_id) by done.
  rewrite (filter_stamp_same Standing.tournament_id) by done.
  rewrite (filter_stamp_other Group.tournament_id tournament_id) by done.
  rewrite (filter_stamp_other Standing.tournament_id tournament_id) by done.
  rewrite !fmap_app, !app_nil_r, !length_stamp. done.
Qed.

(** ** More on partial updates *)






Lemma filter_update_first_ids {A} (i : oid) (u : A → A) (key : A → str) (g : str)
    (l : list (Doc A)) :
  (∀ a, key (u a) = key a) →
  _id <$> List.filter (λ d, bool_decide (key (body d) = g)) (update_first (_id_is i) u l)
  = _id <$> List.filter (λ d, bool_decide (key (body d) = g)) l.
Proof.
  intros Hkey. induction l as [|d l IH]; [done|]. cbn [update_first].
  destruct (_id_is i d).
  - cbn [List.filter body]. rewrite Hkey. by destruct (bool_decide _).
  - cbn [List.filter]. destruct (bool_decide _); [rewrite !fmap_cons|]; by rewrite IH.
Qed.

Lemma serialized_ids {A} (l : list (Doc A)) :
  Serialized.id <$> (serialize_doc <$> l) = oid_str <$> (_id <$> l).
Proof. rewrite <- !list_fmap_compose. by apply list_fmap_ext. Qed.

(** X18: an update moves no document. With a well-formed id, after
    update_match the listing list_matches of every tournament id string
    holds the same identifiers in the same order as before, and after
    update_standing so does list_standings: neither handler can change the
    tournament a document belongs to, add a document or remove one. *)
Theorem updates_keep_listings (match_id standing_id any : str) (mid sid : oid)
    (pm : UpdateMatchRequest.t) (ps : UpdateStandingRequest.t) (s : Database) :
  ObjectId match_id = Some mid →
  ObjectId standing_id = Some sid →
  (∃ before after,
     (list_matches any (Some s)).1 = Return before
     ∧ (list_matches any (update_match match_id pm (Some s)).2).1 = Return after
     ∧ Serialized.id <$> after = Serialized.id <$> before)
  ∧ (∃ before after,
       (list_standings any (Some s)).1 = Return before
       ∧ (list_standings any (update_standing standing_id ps (Some s)).2).1 = Return after
       ∧ Serialized.id <$> after = Serialized.id <$> before).
Proof.
  intros Hmid Hsid. split.
  - rewrite (update_match_run match_id mid pm s Hmid). cbn [snd].
    rewrite !list_matches_run. cbn [fst match_]. eexists _, _.
    split; [done|]. split; [done|]. rewrite !serialized_ids.
    by rewrite (filter_update_first_ids mid (set_match pm) Match.tournament_id).
  - assert (Hcases : (∀ v, UpdateStandingRequest.total_points ps = Some v →
                           - 2 ^ 63 ≤ v < 2 ^ 63)
                     ∨ ∃ v, UpdateStandingRequest.total_points ps = Some v
                            ∧ ¬ (- 2 ^ 63 ≤ v < 2 ^ 63)).
    { destruct (UpdateStandingRequest.total_points ps) as [v|]; [|by left].
      destruct (decide (- 2 ^ 63 ≤ v < 2 ^ 63)) as [Hin|Hout].
      - left. by intros ? [= <-].
      - right. by exists v. }
    destruct Hcases as [Hfit|(v & Hv & Hbig)].
    + rewrite (update_standing_run standing_id sid ps s Hsid Hfit). cbn [snd].
      rewrite !list_standings_run. cbn [fst standing]. eexists _, _.
      split; [done|]. split; [done|]. rewrite !serialized_ids.
      by rewrite (filter_update_first_ids sid (set_standing ps) Standing.tournament_id).
    + rewrite (update_standing_refused standing_id sid ps v s Hsid Hv Hbig).
      cbn [snd]. rewrite list_standings_run. by eexists _, _.
Qed.



(** ** Listing, then fetching *)

(** X21: every tournament that list_tournaments returns can be fetched.
    In a store whose tournaments have pairwise different identifiers, each
    parsed back from its string form, get_tournament on the id of any
    listed tournament returns that very entry. *)
Theorem listed_tournament_fetched (game : option str) (s : Database)
    (l : list (Serialized.t Tournament.t)) (x : Serialized.t Tournament.t) :
  NoDup (_id <$> tournament s) →
  (∀ d, d ∈ tournament s → ObjectId (oid_str (_id d)) = Some (_id d)) →
  list_tournaments game (Some s) = (Return l, Some s) →
  x ∈ l →
  get_tournament (Serialized.id x) (Some s) = (Return x, Some s).
Proof.
  intros Hnd Hround Hlist Hx.
  assert (Hd : ∃ d, d ∈ tournament s ∧ x = serialize_doc d).
  { unfold list_tournaments, with_db, get_documents, find in Hlist.
    destruct game as [g|]; [destruct (bool_decide (g = []))|];
      revert Hlist; run; intros [= <-];
      apply list_elem_of_fmap in Hx as (d & -> & Hd);
      apply list_elem_of_In, filter_In in Hd as [Hd _];
      exists d; by rewrite list_elem_of_In. }
  destruct Hd as (d & Hd & ->). simpl.
  unfold get_tournament, with_db, try_ObjectId. rewrite (Hround d Hd). run.
  rewrite (find_id_is_unique (_id d) _ d) by done. done.
Qed.

End Properties.

(** * The handlers on the sample store *)

Section Examples.
#[local] Existing Instance hex24.

Lemma sample_tournaments_unique : NoDup (_id <$> tournament Sample.store).
Proof.
  simpl. apply NoDup_cons. split; [|apply NoDup_singleton].
  intros Hin%list_elem_of_singleton. discriminate.
Defined.

Lemma sample_no_tournament_255 (d : Doc Tournament.t) :
  d ∈ tournament Sample.store → _id d ≠ 255.
Proof.
  intros Hd. apply list_elem_of_In in Hd. simpl in Hd.
  destruct Hd as [<-|[<-|[]]]; discriminate.
Defined.

Lemma generate_brackets_pairs_witness :
  ObjectId Sample.open_id = Some 241
  ∧ List.find (_id_is 241) (tournament Sample.store) = Some Sample.pubg_open
  ∧ (generate_brackets Sample.open_id (Some Sample.store)).1 = Return {| created := 2 |}.
Proof.
  split; [reflexivity|]. split; [reflexivity|].
  destruct (generate_brackets_pairs (H:=hex24) Sample.open_id 241 Sample.pubg_open Sample.store
              eq_refl eq_refl) as (new & Hrun & _).
  rewrite Hrun. reflexivity.
Defined.

Lemma generate_brackets_twice_witness :
  ObjectId Sample.open_id = Some 241
  ∧ List.find (_id_is 241) (tournament Sample.store) = Some Sample.pubg_open
  ∧ ∃ l, (list_matches Sample.open_id
            (generate_brackets Sample.open_id
               (generate_brackets Sample.open_id (Some Sample.store)).2).2).1 = Return l
         ∧ length l = 4%nat.
Proof.
  split; [reflexivity|]. split; [reflexivity|].
  destruct (generate_brackets_twice (H:=hex24) Sample.open_id 241 Sample.pubg_open Sample.store
              eq_refl eq_refl) as (first & second & s1 & s2 & H1 & H2 & _ & _ & _ & _ & Hl).
  rewrite H1. cbn [snd]. rewrite H2. cbn [snd]. apply Hl. reflexivity.
Defined.

Lemma generate_groups_counts_witness :
  ObjectId Sample.cup_id = Some 242
  ∧ List.find (_id_is 242) (tournament Sample.store) = Some Sample.hok_cup
  ∧ 1 ≤ 3 ≤ 55231
  ∧ (generate_groups Sample.cup_id (GroupGenerationRequest.mk 10 3) (Some Sample.store)).1
    = Return {| groups_created := 3; standing_slots := 9 |}.
Proof.
  split; [reflexivity|]. split; [reflexivity|]. split; [lia|].
  destruct (generate_groups_counts (H:=hex24) Sample.cup_id 242 Sample.hok_cup Sample.store 10 3
              eq_refl eq_refl ltac:(lia)) as (new_groups & new_standings & Hrun & _).
  rewrite Hrun. reflexivity.
Defined.

(** C2 as stated fails from 55232 groups on: the name of the 55232nd,
    chr(65 + 55231), is the lone surrogate U+D800, which the driver cannot
    encode; the insert of the groups raises and nothing is created. *)
Lemma generate_groups_counts_lone_surrogate :
  let run := generate_groups Sample.cup_id (GroupGenerationRequest.mk 0 55232)
               (Some Sample.store) in
  chr (ord_A + 55231) = Return [55296]
  ∧ utf8 [55296] = false
  ∧ run = (Raise UnicodeEncodeError, Some Sample.store)
  ∧ (∀ r : GroupsResponse, run.1 ≠ Return r)
  ∧ group Sample.store = [].
Proof.
  assert (Hrun : generate_groups Sample.cup_id (GroupGenerationRequest.mk 0 55232)
                   (Some Sample.store) = (Raise UnicodeEncodeError, Some Sample.store)).
  { apply (generate_groups_lone_surrogate (H:=hex24) Sample.cup_id 242 Sample.hok_cup);
      [done..|lia]. }
  cbv zeta. rewrite Hrun. split; [reflexivity|]. split; [reflexivity|].
  split; [reflexivity|]. split; [discriminate|reflexivity].
Qed.

(** Beyond the last code point: with 1114048 groups the name of the last
    one, chr(65 + 1114047), does not exist; the handler raises ValueError
    and nothing is created. *)
Lemma generate_groups_counts_beyond_chr :
  let run := generate_groups Sample.cup_id (GroupGenerationRequest.mk 0 1114048)
               (Some Sample.store) in
  chr (ord_A + 1114047) = Raise ValueError
  ∧ run = (Raise ValueError, Some Sample.store)
  ∧ (∀ r : GroupsResponse, run.1 ≠ Return r)
  ∧ group Sample.store = [].
Proof.
  assert (Hrun : generate_groups Sample.cup_id (GroupGenerationRequest.mk 0 1114048)
                   (Some Sample.store) = (Raise ValueError, Some Sample.store)).
  { apply (generate_groups_beyond_chr (H:=hex24) Sample.cup_id 242 Sample.hok_cup); [done..|lia]. }
  cbv zeta. rewrite Hrun. split; [reflexivity|]. split; [reflexivity|].
  split; [discriminate|reflexivity].
Qed.

Lemma generate_groups_names_witness :
  ObjectId Sample.cup_id = Some 242
  ∧ List.find (_id_is 242) (tournament Sample.store) = Some Sample.hok_cup
  ∧ 1 ≤ 3 ≤ 26
  ∧ ∃ r s' new_groups,
      generate_groups Sample.cup_id (GroupGenerationRequest.mk 10 3) (Some Sample.store)
      = (Return r, Some s')
      ∧ group s' = group Sample.store ++ new_groups
      ∧ Group.name ∘ body <$> new_groups = [lit "A"; lit "B"; lit "C"].
Proof.
  split; [reflexivity|]. split; [reflexivity|]. split; [lia|].
  destruct (generate_groups_names (H:=hex24) Sample.cup_id 242 Sample.hok_cup Sample.store 10 3
              eq_refl eq_refl ltac:(lia)) as (r & s' & new_groups & Hrun & Hs' & _ & Hn & _).
  exists r, s', new_groups. split; [exact Hrun|]. split; [exact Hs'|]. exact Hn.
Defined.

(** C6 as stated fails at N = 27: the 27th group is named "[", the
    character after "Z", which is not a letter. *)
Lemma generate_groups_names_27th_group :
  ∃ r s' d,
    generate_groups Sample.cup_id (GroupGenerationRequest.mk 27 27) (Some Sample.store)
    = (Return r, Some s')
    ∧ groups_created r = 27%nat
    ∧ group s' !! 26%nat = Some d
    ∧ Group.name (body d) = lit "["
    ∧ is_uppercase_letter (Group.name (body d)) = false.
Proof.
  eexists _, _, _. split; [reflexivity|].
  split; [reflexivity|]. split; [reflexivity|]. split; reflexivity.
Qed.

Lemma generate_groups_zero_groups_witness :
  ObjectId Sample.cup_id = Some 242
  ∧ List.find (_id_is 242) (tournament Sample.store) = Some Sample.hok_cup
  ∧ generate_groups Sample.cup_id (GroupGenerationRequest.mk 10 0) (Some Sample.store)
    = (Raise ZeroDivisionError, Some Sample.store).
Proof.
  split; [reflexivity|]. split; [reflexivity|].
  exact (generate_groups_zero_groups (H:=hex24) Sample.cup_id 242 Sample.hok_cup Sample.store 10
           eq_refl eq_refl).
Defined.



Lemma get_tournament_cases_witness :
  get_tournament (lit "pubg-open") (Some Sample.store)
  = (Raise (HTTPException 400 "Invalid tournament id"), Some Sample.store)
  ∧ get_tournament Sample.absent_id (Some Sample.store)
    = (Raise (HTTPException 404 "Not found"), Some Sample.store)
  ∧ get_tournament Sample.open_id (Some Sample.store)
    = (Return (Serialized.mk Sample.open_id (body Sample.pubg_open)), Some Sample.store).
Proof.
  split; [|split].
  - destruct (get_tournament_cases (H:=hex24) (lit "pubg-open")) as (_ & Hbad & _).
    exact (Hbad Sample.store eq_refl).
  - destruct (get_tournament_cases (H:=hex24) Sample.absent_id) as (_ & _ & Habsent & _).
    exact (Habsent Sample.store 255 eq_refl sample_no_tournament_255).
  - destruct (get_tournament_cases (H:=hex24) Sample.open_id) as (_ & _ & _ & Hfound).
    exact (Hfound Sample.store 241 Sample.pubg_open eq_refl sample_tournaments_unique
             ltac:(by left) eq_refl).
Defined.

Lemma list_tournaments_filter_witness :
  list_tournaments (Some (lit "PUBG Mobile")) (Some Sample.store)
  = (Return [serialize_doc Sample.pubg_open], Some Sample.store)
  ∧ list_tournaments None (Some Sample.store)
    = (Return [serialize_doc Sample.pubg_open; serialize_doc Sample.hok_cup],
       Some Sample.store).
Proof.
  split.
  - destruct (list_tournaments_filter (H:=hex24) (Some (lit "PUBG Mobile"))) as (_ & Hgame & _).
    rewrite (Hgame Sample.store (lit "PUBG Mobile") eq_refl ltac:(discriminate)).
    reflexivity.
  - destruct (list_tournaments_filter (H:=hex24) None) as (_ & _ & Hall).
    exact (Hall Sample.store (or_introl eq_refl)).
Defined.

(** C7 as stated fails for the empty game string: it is given, no stored
    tournament has it as its game, and every tournament is returned. *)
Lemma list_tournaments_empty_game :
  list_tournaments (Some []) (Some Sample.store)
  = (Return [serialize_doc Sample.pubg_open; serialize_doc Sample.hok_cup],
     Some Sample.store)
  ∧ filter (λ d, Tournament.game (body d) = []) (tournament Sample.store) = []
  ∧ (list_tournaments (Some []) (Some Sample.store)).1
    ≠ Return (serialize_doc <$>
              filter (λ d, Tournament.game (body d) = []) (tournament Sample.store)).
Proof. split; [reflexivity|]. split; [reflexivity|]. discriminate. Qed.

Lemma attach_team_set_insert_witness :
  ObjectId Sample.cup_id = Some 242
  ∧ ObjectId Sample.charlie_id = Some 163
  ∧ (∃ s1, attach_team Sample.cup_id (AttachTeamRequest.mk Sample.charlie_id)
             (Some Sample.store) = (Return {| ok := true |}, Some s1)
           ∧ attach_team Sample.cup_id (AttachTeamRequest.mk Sample.charlie_id) (Some s1)
             = (Return {| ok := true |}, Some s1)
           ∧ Tournament.team_ids ∘ body <$> tournament s1
             = [[Sample.alpha_id; Sample.bravo_id; Sample.charlie_id]; [Sample.charlie_id]]).
Proof.
  split; [reflexivity|]. split; [reflexivity|].
  destruct (attach_team_set_insert (H:=hex24) Sample.cup_id (AttachTeamRequest.mk Sample.charlie_id)
              242 163 (mkDoc (H:=hex24) 163 (Team.mk (lit "Charlie") None)) Sample.hok_cup
              Sample.store eq_refl eq_refl eq_refl eq_refl)
    as (s1 & t1 & H1 & H2 & _).
  exists s1. split; [exact H1|]. split; [exact H2|].
  assert (Hs1 : Some s1 = (attach_team Sample.cup_id (AttachTeamRequest.mk Sample.charlie_id)
                            (Some Sample.store)).2) by (by rewrite H1).
  injection Hs1 as ->. reflexivity.
Defined.

Lemma attach_team_absent_tournament_witness :
  ObjectId Sample.absent_id = Some 255
  ∧ (∀ d, d ∈ tournament Sample.store → _id d ≠ 255)
  ∧ ObjectId Sample.alpha_id = Some 161
  ∧ attach_team Sample.absent_id (AttachTeamRequest.mk Sample.alpha_id) (Some Sample.store)
    = (Return {| ok := true |}, Some Sample.store).
Proof.
  split; [reflexivity|]. split; [exact sample_no_tournament_255|]. split; [reflexivity|].
  exact (attach_team_absent_tournament (H:=hex24) Sample.absent_id
           (AttachTeamRequest.mk Sample.alpha_id) 255 161
           (mkDoc (H:=hex24) 161 (Team.mk (lit "Alpha") None)) Sample.store
           eq_refl sample_no_tournament_255 eq_refl ltac:(by left) eq_refl).
Defined.

(** ** The further properties on the sample store *)

Lemma sample_alpha_bravo : Sample.alpha_id ≠ Sample.bravo_id.
Proof. intros Heq. vm_compute in Heq. discriminate. Defined.

Lemma sample_alpha_spellings : Sample.alpha_id ≠ Spelling.alpha_ID.
Proof. intros Heq. vm_compute in Heq. discriminate. Defined.

Lemma sample_open_spellings : Spelling.open_ID ≠ Sample.open_id.
Proof. intros Heq. vm_compute in Heq. discriminate. Defined.

Lemma sample_cup_spellings : Spelling.cup_ID ≠ Sample.cup_id.
Proof. intros Heq. vm_compute in Heq. discriminate. Defined.

Lemma sample_no_team_255 (d : Doc Team.t) : d ∈ team Sample.store → _id d ≠ 255.
Proof.
  intros Hd. apply list_elem_of_In in Hd. simpl in Hd.
  destruct Hd as [<-|[<-|[<-|[]]]]; discriminate.
Defined.



Lemma sample_teams_stored (x : str) :
  x ∈ [Sample.bravo_id; Sample.alpha_id] →
  ∃ o tm, ObjectId x = Some o ∧ List.find (_id_is o) (team Sample.store) = Some tm.
Proof.
  intros Hx. apply elem_of_cons in Hx as [->|Hx];
    [|apply list_elem_of_singleton in Hx as ->].
  - by eexists 162, _.
  - by eexists 161, _.
Defined.

Lemma generate_brackets_errors_witness :
  generate_brackets (lit "pubg-open") (Some Sample.store)
  = (Raise (HTTPException 400 "Invalid tournament id"), Some Sample.store)
  ∧ generate_brackets Sample.absent_id (Some Sample.store)
    = (Raise (HTTPException 404 "Tournament not found"), Some Sample.store).
Proof.
  split.
  - destruct (generate_brackets_errors (H:=hex24) (lit "pubg-open")) as (_ & Hbad & _).
    exact (Hbad Sample.store eq_refl).
  - destruct (generate_brackets_errors (H:=hex24) Sample.absent_id) as (_ & _ & Habsent).
    exact (Habsent Sample.store 255 eq_refl sample_no_tournament_255).
Defined.

Lemma generate_groups_errors_witness :
  generate_groups (lit "hok-cup") (GroupGenerationRequest.mk 10 0) (Some Sample.store)
  = (Raise (HTTPException 400 "Invalid tournament id"), Some Sample.store)
  ∧ generate_groups Sample.absent_id (GroupGenerationRequest.mk 10 0) (Some Sample.store)
    = (Raise (HTTPException 404 "Tournament not found"), Some Sample.store).
Proof.
  split.
  - destruct (generate_groups_errors (H:=hex24) (lit "hok-cup")
                (GroupGenerationRequest.mk 10 0)) as (_ & Hbad & _).
    exact (Hbad Sample.store eq_refl).
  - destruct (generate_groups_errors (H:=hex24) Sample.absent_id
                (GroupGenerationRequest.mk 10 0)) as (_ & _ & Habsent).
    exact (Habsent Sample.store 255 eq_refl sample_no_tournament_255).
Defined.

Lemma attach_team_errors_witness :
  attach_team Sample.cup_id (AttachTeamRequest.mk (lit "alpha")) (Some Sample.store)
  = (Raise (HTTPException 400 "Invalid IDs"), Some Sample.store)
  ∧ attach_team Sample.absent_id (AttachTeamRequest.mk Sample.absent_id)
      (Some Sample.store)
    = (Raise (HTTPException 404 "Team not found"), Some Sample.store).
Proof.
  split.
  - destruct (attach_team_errors (H:=hex24) Sample.cup_id
                (AttachTeamRequest.mk (lit "alpha"))) as (_ & Hbad & _).
    exact (Hbad Sample.store (or_intror eq_refl)).
  - destruct (attach_team_errors (H:=hex24) Sample.absent_id
                (AttachTeamRequest.mk Sample.absent_id)) as (_ & _ & Habsent).
    exact (Habsent Sample.store 255 255 eq_refl eq_refl sample_no_team_255).
Defined.

Lemma update_errors_witness :
  update_match (lit "801") (UpdateMatchRequest.mk None None None) (Some Sample.store)
  = (Raise (HTTPException 400 "Invalid match id"), Some Sample.store)
  ∧ update_standing (lit "901") (UpdateStandingRequest.mk None None None None (Some 3))
      (Some Sample.store)
    = (Raise (HTTPException 400 "Invalid standing id"), Some Sample.store).
Proof.
  destruct (update_errors (H:=hex24) (lit "801") (lit "901")
              (UpdateMatchRequest.mk None None None)
              (UpdateStandingRequest.mk None None None None (Some 3)))
    as (_ & _ & Hm & Hs).
  split; [exact (Hm Sample.store eq_refl)|exact (Hs Sample.store eq_refl)].
Defined.

Lemma generate_brackets_no_teams_witness :
  ObjectId Sample.cup_id = Some 242
  ∧ List.find (_id_is 242) (tournament Sample.store) = Some Sample.hok_cup
  ∧ Tournament.team_ids (body Sample.hok_cup) = []
  ∧ generate_brackets Sample.cup_id (Some Sample.store)
    = (Return {| created := 0 |}, Some Sample.store).
Proof.
  split; [reflexivity|]. split; [reflexivity|]. split; [reflexivity|].
  exact (generate_brackets_no_teams (H:=hex24) Sample.cup_id 242 Sample.hok_cup
           Sample.store eq_refl eq_refl eq_refl).
Defined.

Lemma generate_brackets_covers_teams_witness :
  ObjectId Sample.open_id = Some 241
  ∧ List.find (_id_is 241) (tournament Sample.store) = Some Sample.pubg_open
  ∧ ∃ new s', generate_brackets Sample.open_id (Some Sample.store)
              = (Return {| created := length new |}, Some s')
              ∧ (d ← new; teams_of (body d))
                = [Sample.alpha_id; Sample.bravo_id; Sample.charlie_id].
Proof.
  split; [reflexivity|]. split; [reflexivity|].
  destruct (generate_brackets_covers_teams (H:=hex24) Sample.open_id 241 Sample.pubg_open
              Sample.store eq_refl eq_refl) as (new & s' & Hrun & _ & Hteams).
  exists new, s'. split; [exact Hrun|exact Hteams].
Defined.

Lemma attach_teams_in_order_witness :
  ObjectId Sample.cup_id = Some 242
  ∧ NoDup [Sample.bravo_id; Sample.alpha_id]
  ∧ List.find (_id_is 242) (tournament Sample.store) = Some Sample.hok_cup
  ∧ ∃ s', attach_teams (attach_each Sample.cup_id [Sample.bravo_id; Sample.alpha_id])
            (Some Sample.store) = Some s'
          ∧ List.find (_id_is 242) (tournament s')
            = Some (mkDoc 242 (Tournament.mk (lit "HoK Cup") (lit "Honor of Kings")
                                 [Sample.bravo_id; Sample.alpha_id])).
Proof.
  assert (Hnd : NoDup [Sample.bravo_id; Sample.alpha_id]).
  { apply NoDup_cons. split; [|apply NoDup_singleton].
    intros Hin%list_elem_of_singleton. by apply sample_alpha_bravo. }
  split; [reflexivity|]. split; [exact Hnd|]. split; [reflexivity|].
  destruct (attach_teams_in_order (H:=hex24) Sample.cup_id 242
              [Sample.bravo_id; Sample.alpha_id] Sample.hok_cup Sample.store
              eq_refl Hnd eq_refl sample_teams_stored
              (λ x _, not_elem_of_nil x)) as (s' & Hrun & Ht & _).
  exists s'. split; [exact Hrun|exact Ht].
Defined.

Lemma attach_team_two_spellings_witness :
  ObjectId Sample.alpha_id = Some 161
  ∧ ObjectId Spelling.alpha_ID = Some 161
  ∧ Sample.alpha_id ≠ Spelling.alpha_ID
  ∧ ∃ s' t', attach_teams (attach_each Sample.cup_id [Sample.alpha_id; Spelling.alpha_ID])
               (Some Sample.store) = Some s'
             ∧ List.find (_id_is 242) (tournament s') = Some t'
             ∧ Tournament.team_ids (body t') = [Sample.alpha_id; Spelling.alpha_ID].
Proof.
  split; [reflexivity|]. split; [reflexivity|]. split; [exact sample_alpha_spellings|].
  exact (attach_team_two_spellings (H:=hex24) Sample.cup_id Sample.alpha_id
           Spelling.alpha_ID 242 161 (mkDoc (H:=hex24) 161 (Team.mk (lit "Alpha") None))
           Sample.hok_cup Sample.store eq_refl eq_refl eq_refl eq_refl
           sample_alpha_spellings eq_refl (not_elem_of_nil _) (not_elem_of_nil _)).
Defined.

Lemma attach_two_then_brackets_witness :
  ObjectId Sample.cup_id = Some 242
  ∧ Sample.bravo_id ≠ Sample.alpha_id
  ∧ ∃ s2 s3 m,
      attach_teams (attach_each Sample.cup_id [Sample.bravo_id; Sample.alpha_id])
        (Some Sample.store) = Some s2
      ∧ generate_brackets Sample.cup_id (Some s2) = (Return {| created := 1 |}, Some s3)
      ∧ match_ s3 = match_ Sample.store ++ [m]
      ∧ body m = Match.mk Sample.cup_id 1 (Some Sample.bravo_id) (Some Sample.alpha_id) None.
Proof.
  split; [reflexivity|].
  split; [exact (λ Heq, sample_alpha_bravo (eq_sym Heq))|].
  exact (attach_two_then_brackets (H:=hex24) Sample.cup_id Sample.bravo_id Sample.alpha_id
           242 Sample.hok_cup Sample.store eq_refl eq_refl eq_refl
           (λ Heq, sample_alpha_bravo (eq_sym Heq)) sample_teams_stored).
Defined.

Lemma attach_then_get_witness :
  ObjectId Sample.cup_id = Some 242
  ∧ ObjectId Sample.charlie_id = Some 163
  ∧ ∃ s1, attach_team Sample.cup_id (AttachTeamRequest.mk Sample.charlie_id)
            (Some Sample.store) = (Return {| ok := true |}, Some s1)
          ∧ get_tournament Sample.cup_id (Some s1)
            = (Return (Serialized.mk Sample.cup_id
                         (Tournament.mk (lit "HoK Cup") (lit "Honor of Kings")
                            [Sample.charlie_id])),
               Some s1).
Proof.
  split; [reflexivity|]. split; [reflexivity|].
  destruct (attach_then_get (H:=hex24) Sample.cup_id Sample.charlie_id 242 163
              (mkDoc (H:=hex24) 163 (Team.mk (lit "Charlie") None)) Sample.hok_cup
              Sample.store eq_refl eq_refl eq_refl eq_refl) as (s1 & Hrun & Hget & _).
  exists s1. split; [exact Hrun|exact Hget].
Defined.

Lemma generate_groups_negative_witness :
  ObjectId Sample.cup_id = Some 242
  ∧ List.find (_id_is 242) (tournament Sample.store) = Some Sample.hok_cup
  ∧ -2 < 0
  ∧ generate_groups Sample.cup_id (GroupGenerationRequest.mk 10 (-2)) (Some Sample.store)
    = (Return {| groups_created := 0; standing_slots := 0 |}, Some Sample.store).
Proof.
  split; [reflexivity|]. split; [reflexivity|]. split; [lia|].
  exact (generate_groups_negative (H:=hex24) Sample.cup_id 242 Sample.hok_cup Sample.store
           10 (-2) eq_refl eq_refl ltac:(lia)).
Defined.

Lemma standing_slots_and_teams_witness :
  ObjectId Sample.cup_id = Some 242
  ∧ List.find (_id_is 242) (tournament Sample.store) = Some Sample.hok_cup
  ∧ 1 ≤ 3 ≤ 55231
  ∧ ∃ r s', generate_groups Sample.cup_id (GroupGenerationRequest.mk 10 3)
              (Some Sample.store) = (Return r, Some s')
            ∧ Z.of_nat (standing_slots r) = 10 - 10 `mod` 3.
Proof.
  split; [reflexivity|]. split; [reflexivity|]. split; [lia|].
  destruct (standing_slots_and_teams (H:=hex24) Sample.cup_id 242 Sample.hok_cup
              Sample.store 10 3 eq_refl eq_refl ltac:(lia)) as (r & s' & Hrun & Hge & _).
  exists r, s'. split; [exact Hrun|]. apply Hge. lia.
Defined.

Lemma standings_reference_groups_witness :
  ObjectId Sample.cup_id = Some 242
  ∧ List.find (_id_is 242) (tournament Sample.store) = Some Sample.hok_cup
  ∧ 3 ≠ 0 ∧ 3 ≤ 55231
  ∧ ∃ r s' new_groups, generate_groups Sample.cup_id (GroupGenerationRequest.mk 10 3)
              (Some Sample.store) = (Return r, Some s')
            ∧ group s' = group Sample.store ++ new_groups
            ∧ NoDup (Group.name ∘ body <$> new_groups).
Proof.
  split; [reflexivity|]. split; [reflexivity|]. split; [lia|]. split; [lia|].
  destruct (standings_reference_groups (H:=hex24) Sample.cup_id 242 Sample.hok_cup
              Sample.store 10 3 eq_refl eq_refl ltac:(lia) ltac:(lia))
    as (r & s' & new_groups & new_standings & Hrun & Hg & _ & Hnd & _).
  exists r, s', new_groups. split; [exact Hrun|]. split; [exact Hg|exact Hnd].
Defined.

Lemma generate_groups_twice_witness :
  ObjectId Sample.cup_id = Some 242
  ∧ List.find (_id_is 242) (tournament Sample.store) = Some Sample.hok_cup
  ∧ 1 ≤ 3 ≤ 55231
  ∧ ∃ r s1 s2, generate_groups Sample.cup_id (GroupGenerationRequest.mk 10 3)
                 (Some Sample.store) = (Return r, Some s1)
               ∧ generate_groups Sample.cup_id (GroupGenerationRequest.mk 10 3) (Some s1)
                 = (Return r, Some s2).
Proof.
  split; [reflexivity|]. split; [reflexivity|]. split; [lia|].
  destruct (generate_groups_twice (H:=hex24) Sample.cup_id 242 Sample.hok_cup
              Sample.store 10 3 eq_refl eq_refl ltac:(lia))
    as (r & s1 & s2 & g1 & g2 & st1 & st2 & H1 & H2 & _).
  exists r, s1, s2. split; [exact H1|exact H2].
Defined.

Lemma generate_brackets_listing_witness :
  ObjectId Sample.open_id = Some 241
  ∧ ObjectId Spelling.open_ID = Some 241
  ∧ List.find (_id_is 241) (tournament Sample.store) = Some Sample.pubg_open
  ∧ Spelling.open_ID ≠ Sample.open_id
  ∧ ∃ r s', generate_brackets Sample.open_id (Some Sample.store) = (Return r, Some s')
            ∧ (list_matches Spelling.open_ID (Some s')).1
              = (list_matches Spelling.open_ID (Some Sample.store)).1.
Proof.
  split; [reflexivity|]. split; [reflexivity|]. split; [reflexivity|].
  split; [exact sample_open_spellings|].
  destruct (generate_brackets_listing (H:=hex24) Sample.open_id Spelling.open_ID 241
              Sample.pubg_open Sample.store eq_refl eq_refl sample_open_spellings)
    as (r & s' & before & new & Hrun & _ & _ & _ & Hother & _).
  exists r, s'. split; [exact Hrun|exact Hother].
Defined.

Lemma generate_groups_listing_witness :
  ObjectId Sample.cup_id = Some 242
  ∧ List.find (_id_is 242) (tournament Sample.store) = Some Sample.hok_cup
  ∧ 3 ≠ 0 ∧ 3 ≤ 55231
  ∧ Spelling.cup_ID ≠ Sample.cup_id
  ∧ ∃ r s', generate_groups Sample.cup_id (GroupGenerationRequest.mk 10 3)
              (Some Sample.store) = (Return r, Some s')
            ∧ (list_groups Spelling.cup_ID (Some s')).1
              = (list_groups Spelling.cup_ID (Some Sample.store)).1.
Proof.
  split; [reflexivity|]. split; [reflexivity|]. split; [lia|]. split; [lia|].
  split; [exact sample_cup_spellings|].
  destruct (generate_groups_listing (H:=hex24) Sample.cup_id Spelling.cup_ID 242
              Sample.hok_cup Sample.store 10 3 eq_refl eq_refl ltac:(lia) ltac:(lia)
              sample_cup_spellings)
    as (r & s' & gb & sb & ng & ns & Hrun & _ & _ & _ & _ & _ & _ & Hother & _).
  exists r, s'. split; [exact Hrun|exact Hother].
Defined.


Lemma updates_keep_listings_witness :
  ObjectId Sample.match_801 = Some 801
  ∧ ObjectId Sample.standing_901 = Some 901
  ∧ ∃ before after,
      (list_matches Sample.cup_id (Some Sample.store)).1 = Return before
      ∧ (list_matches Sample.cup_id
           (update_match Sample.match_801
              (UpdateMatchRequest.mk None None (Some Sample.alpha_id))
              (Some Sample.store)).2).1 = Return after
      ∧ Serialized.id <$> after = Serialized.id <$> before.
Proof.
  split; [reflexivity|]. split; [reflexivity|].
  destruct (updates_keep_listings (H:=hex24) Sample.match_801 Sample.standing_901
              Sample.cup_id 801 901
              (UpdateMatchRequest.mk None None (Some Sample.alpha_id))
              (UpdateStandingRequest.mk None None None None (Some 3))
              Sample.store eq_refl eq_refl) as (Hm & _).
  exact Hm.
Defined.



Lemma sample_ids_parse_back (d : Doc Tournament.t) :
  d ∈ tournament Sample.store → ObjectId (oid_str (_id d)) = Some (_id d).
Proof.
  intros Hd. apply list_elem_of_In in Hd. simpl in Hd.
  destruct Hd as [<-|[<-|[]]]; reflexivity.
Defined.

Lemma listed_tournament_fetched_witness :
  NoDup (_id <$> tournament Sample.store)
  ∧ (∀ d, d ∈ tournament Sample.store → ObjectId (oid_str (_id d)) = Some (_id d))
  ∧ list_tournaments None (Some Sample.store)
    = (Return [serialize_doc Sample.pubg_open; serialize_doc Sample.hok_cup],
       Some Sample.store)
  ∧ get_tournament Sample.cup_id (Some Sample.store)
    = (Return (serialize_doc Sample.hok_cup), Some Sample.store).
Proof.
  split; [exact sample_tournaments_unique|]. split; [exact sample_ids_parse_back|].
  split; [reflexivity|].
  exact (listed_tournament_fetched (H:=hex24) None Sample.store _
           (serialize_doc Sample.hok_cup) sample_tournaments_unique sample_ids_parse_back
           eq_refl ltac:(right; left)).
Defined.

End Examples.
